(** * fastapi-auth: the credential and token lifecycle

    A shallow embedding of [app/models.py], [app/auth.py] and
    [app/auth_routes.py], and the properties of the refresh-token
    manager, the authentication helpers and the HTTP endpoints.

    Conventions.
    - A [datetime] is a number of microseconds since the epoch (all the
      datetimes of the program are timezone-aware UTC values).
    - A table is the list of its rows; [Query.first] takes the first row
      that satisfies the filter and [Query.all] every such row.
    - Whatever the program reads from its environment is an argument: the
      reading of [datetime.now], the output of [secrets.token_urlsafe],
      the salt drawn by the password hasher.
    - A [str] is a [string] with one [ascii] for each character, so the
      characters that are written out are those below U+0100; [bytes]
      are a [string] with one [ascii] for each byte. *)

From Stdlib Require Import ZArith List String Ascii Bool Lia DecimalString.
From Stdlib Require Import Permutation.
Import ListNotations.

Local Open Scope string_scope.
Local Open Scope list_scope.
Local Open Scope Z_scope.

Definition datetime := Z.

(** [timedelta(days=n)] and [timedelta(minutes=n)], in microseconds. *)
Definition timedelta_days (n : Z) : Z := n * 86400000000.
Definition timedelta_minutes (n : Z) : Z := n * 60000000.

(** ** app/models.py *)

Module User.
Record t := mk {
  id : Z;
  email : string;
  username : string;
  hashed_password : string;
  is_active : bool;
  is_verified : bool;
  created_at : datetime;
  updated_at : option datetime
}.

Definition set_hashed_password (h : string) (now : datetime) (u : t) : t :=
  mk (id u) (email u) (username u) h (is_active u) (is_verified u)
     (created_at u) (Some now).
End User.

Module RefreshToken.
Record t := mk {
  id : Z;
  user_id : Z;
  token : string;
  expires_at : datetime;
  created_at : datetime;
  is_revoked : bool;
  revoked_at : option datetime;
  revoked_reason : option string;
  user_agent : option string;
  ip_address : option string
}.

(** The two assignments [is_revoked = True; revoked_at = now] made on a
    row by both revocation functions. *)
Definition revoke (now : datetime) (r : t) : t :=
  mk (id r) (user_id r) (token r) (expires_at r) (created_at r)
     true (Some now) (revoked_reason r) (user_agent r) (ip_address r).
End RefreshToken.

(** The store behind a [Session]: the two tables and the sequences their
    integer primary keys are drawn from. *)
Record Session := mkSession {
  users : list User.t;
  refresh_tokens : list RefreshToken.t;
  users_id_seq : Z;
  refresh_tokens_id_seq : Z
}.

Definition set_refresh_tokens (rows : list RefreshToken.t) (db : Session) : Session :=
  mkSession (users db) rows (users_id_seq db) (refresh_tokens_id_seq db).

Definition set_users (rows : list User.t) (db : Session) : Session :=
  mkSession rows (refresh_tokens db) (users_id_seq db) (refresh_tokens_id_seq db).

Module Query.
Definition first {A} (p : A -> bool) (rows : list A) : option A := find p rows.
Definition all {A} (p : A -> bool) (rows : list A) : list A := filter p rows.
End Query.

(** ** Exceptions *)

Inductive exn :=
| HTTPException (status_code : Z) (detail : string)
| IntegrityError (constraint : string)
| DataError (column : string)
| UnknownHashError
| LibraryError (name : string).

Inductive result (A : Type) :=
| Ok (a : A)
| Raise (e : exn).
Arguments Ok {A} a.
Arguments Raise {A} e.

Definition bind {A B} (m : result A) (k : A -> result B) : result B :=
  match m with
  | Ok a => k a
  | Raise e => Raise e
  end.

Notation "x <- m ;; k" := (bind m (fun x => k))
  (at level 61, m at next level, right associativity).

(** ** app/auth.py: the refresh-token manager *)

Module Settings.
Record t := mk {
  SECRET_KEY : string;
  ALGORITHM : string;
  ACCESS_TOKEN_EXPIRE_MINUTES : Z;
  REFRESH_TOKEN_EXPIRE_DAYS : Z;
  DEBUG : bool
}.
End Settings.

(** The filter of [verify_refresh_token]: the token string, the flag and
    the strict comparison of the expiry with the current time. *)
Definition is_valid_for (token : string) (now : datetime) (r : RefreshToken.t) : bool :=
  (RefreshToken.token r =? token)%string
  && negb (RefreshToken.is_revoked r)
  && (now <? RefreshToken.expires_at r).

Definition verify_refresh_token (token : string) (db : Session) (now : datetime)
  : option Z :=
  match Query.first (is_valid_for token now) (refresh_tokens db) with
  | Some db_token => Some (RefreshToken.user_id db_token)
  | None => None
  end.

(** The filter of [revoke_all_user_tokens]. *)
Definition is_active_token_of (user_id : Z) (r : RefreshToken.t) : bool :=
  (RefreshToken.user_id r =? user_id) && negb (RefreshToken.is_revoked r).

(** The loop of [revoke_all_user_tokens] over the rows the query selected,
    in table order; the other rows are not touched.  [clock k] is what
    [datetime.now] reads at the iteration that finds [count = k]. *)
Fixpoint revoke_loop (user_id : Z) (clock : nat -> datetime)
    (rows : list RefreshToken.t) (count : nat) : list RefreshToken.t * nat :=
  match rows with
  | [] => ([], count)
  | r :: rest =>
      if is_active_token_of user_id r then
        let '(rest', n) := revoke_loop user_id clock rest (S count) in
        (RefreshToken.revoke (clock count) r :: rest', n)
      else
        let '(rest', n) := revoke_loop user_id clock rest count in
        (r :: rest', n)
  end.

Definition revoke_all_user_tokens (user_id : Z) (db : Session)
    (clock : nat -> datetime) : nat * Session :=
  let '(rows, count) := revoke_loop user_id clock (refresh_tokens db) 0%nat in
  (count, set_refresh_tokens rows db).

(** The mutation of the row that [.first()] returned in
    [revoke_refresh_token]. *)
Fixpoint revoke_first (token : string) (now : datetime)
    (rows : list RefreshToken.t) : list RefreshToken.t :=
  match rows with
  | [] => []
  | r :: rest =>
      if (RefreshToken.token r =? token)%string
      then RefreshToken.revoke now r :: rest
      else r :: revoke_first token now rest
  end.

Definition revoke_refresh_token (token : string) (db : Session) (now : datetime)
  : bool * Session :=
  match Query.first (fun r => (RefreshToken.token r =? token)%string)
                    (refresh_tokens db) with
  | Some _ =>
      (true, set_refresh_tokens (revoke_first token now (refresh_tokens db)) db)
  | None => (false, db)
  end.

(** A value fits a [String(n)] column when it is absent or has at most
    [n] characters. *)
Definition fits (n : nat) (value : option string) : bool :=
  match value with
  | Some s => (String.length s <=? n)%nat
  | None => true
  end.

(** [create_refresh_token].  [token] is the output of
    [secrets.token_urlsafe(32)].  The store refuses the insert with a
    [DataError] when a value is wider than its column ([token] is a
    [String(255)], [user_agent] a [String(512)], [ip_address] a
    [String(45)]), and with an [IntegrityError] when the token string is
    already present (unique column) or when no user has the given id
    (foreign key). *)
Definition create_refresh_token (settings : Settings.t) (user_id : Z) (db : Session)
    (user_agent ip_address : option string) (token : string) (now : datetime)
  : result (string * Session) :=
  let expires_at := now + timedelta_days (Settings.REFRESH_TOKEN_EXPIRE_DAYS settings) in
  let db_token :=
    RefreshToken.mk (refresh_tokens_id_seq db) user_id token expires_at now
                    false None None user_agent ip_address in
  if negb (fits 255 (Some token))
  then Raise (DataError "refresh_tokens.token")
  else if negb (fits 512 user_agent)
  then Raise (DataError "refresh_tokens.user_agent")
  else if negb (fits 45 ip_address)
  then Raise (DataError "refresh_tokens.ip_address")
  else if existsb (fun r => (RefreshToken.token r =? token)%string) (refresh_tokens db)
  then Raise (IntegrityError "refresh_tokens.token")
  else if negb (existsb (fun u => User.id u =? user_id) (users db))
  then Raise (IntegrityError "refresh_tokens.user_id")
  else Ok (token,
           mkSession (users db) (refresh_tokens db ++ [db_token])
                     (users_id_seq db) (refresh_tokens_id_seq db + 1)).

(** ** External libraries

    [python-jose] and [passlib] are not part of the repository.  Their
    functions are fields of an environment; only what [passlib]'s
    [CryptContext] does before it hands over to the bcrypt handler (the
    identification of the hash by its prefix) is written out. *)

(** The values of a claims dictionary ([Dict[str, Any]]). *)
Inductive Value :=
| VNone
| VStr (s : string)
| VInt (n : Z)
| VDatetime (d : datetime).

Definition Dict := list (string * Value).

Definition dict_get (key : string) (d : Dict) : option Value :=
  match find (fun kv => (fst kv =? key)%string) d with
  | Some (_, VNone) => None
  | Some (_, v) => Some v
  | None => None
  end.

Definition dict_set (key : string) (v : Value) (d : Dict) : Dict :=
  (key, v) :: filter (fun kv => negb (fst kv =? key)%string) d.

Definition dict_update (d upd : Dict) : Dict :=
  fold_left (fun acc kv => dict_set (fst kv) (snd kv) acc) upd d.

(** Equality of a claim with a text column: only a string can be equal to
    a username. *)
Definition value_eqb_string (v : Value) (s : string) : bool :=
  match v with
  | VStr s' => (s' =? s)%string
  | _ => false
  end.

Module Env.
Record t := mk {
  settings : Settings.t;
  (** [jwt.encode(claims, key, algorithm)]. *)
  jwt_encode : Dict -> string -> string -> string;
  (** [jwt.decode(token, key, algorithms)] at a given time: the claims,
      or [None] for a [JWTError] (bad signature, malformed token,
      expired). *)
  jwt_decode : string -> string -> list string -> datetime -> option Dict;
  (** The bcrypt handler: [hash] with the salt it drew, and [verify]. *)
  bcrypt_hash : string -> string -> result string;
  bcrypt_verify : string -> string -> result bool
}.
End Env.

Module Passlib.
Definition bcrypt_ident_values : list string :=
  ["$2$"; "$2a$"; "$2x$"; "$2y$"; "$2b$"].

(** [bcrypt.identify(hash)]: the hash starts with one of the
    identifiers. *)
Definition bcrypt_identify (hash : string) : bool :=
  existsb (fun ident => String.prefix ident hash) bcrypt_ident_values.

(** [CryptContext(schemes=["bcrypt"]).verify(secret, hash)]: a hash that
    no configured scheme identifies raises [UnknownHashError]. *)
Definition verify (E : Env.t) (secret hash : string) : result bool :=
  if bcrypt_identify hash
  then Env.bcrypt_verify E secret hash
  else Raise UnknownHashError.

(** [CryptContext(schemes=["bcrypt"]).hash(secret)]. *)
Definition hash (E : Env.t) (salt secret : string) : result string :=
  Env.bcrypt_hash E salt secret.
End Passlib.

(** ** passlib's bcrypt handler

    What [passlib.hash.bcrypt] does under the defaults of the program
    (identifier [2b], cost 12) with the releases of the [bcrypt] package
    it works with, which use the first 72 bytes of a key.
    [raw config key] stands for the 31 characters of the digest that
    bcrypt computes from a key under the 29 characters of identifier,
    cost and salt; this computation is not modelled.  [other] is what the
    handler does with a hash of another shape: another identifier or
    cost, padding bits to repair, or a malformed hash. *)

Module Bcrypt.
Definition HASH64_CHARS : string :=
  "./ABCDEFGHIJKLMNOPQRSTUVWXYZabcdefghijklmnopqrstuvwxyz0123456789".

Definition MAX_PASSWORD_SIZE : nat := 4096.

Fixpoint contains (a : ascii) (s : string) : bool :=
  match s with
  | EmptyString => false
  | String b rest => Ascii.eqb a b || contains a rest
  end.

Fixpoint all_in (alphabet s : string) : bool :=
  match s with
  | EmptyString => true
  | String a rest => contains a alphabet && all_in alphabet rest
  end.

(** The last character is one of [finals]: the unused bits of the last
    character of an encoded value are zero. *)
Fixpoint ends_in (finals s : string) : bool :=
  match s with
  | EmptyString => false
  | String a rest =>
      match rest with
      | EmptyString => contains a finals
      | String _ _ => ends_in finals rest
      end
  end.

(** The slice [s[n:]]. *)
Fixpoint drop (n : nat) (s : string) : string :=
  match n, s with
  | S n', String _ rest => drop n' rest
  | _, _ => s
  end.

(** [s.encode("utf-8")]. *)
Definition encode_utf8_char (a : ascii) : string :=
  let n := nat_of_ascii a in
  if (n <? 128)%nat then String a EmptyString
  else String (ascii_of_nat (192 + n / 64))
              (String (ascii_of_nat (128 + n mod 64)) EmptyString).

Fixpoint encode_utf8 (s : string) : string :=
  match s with
  | EmptyString => EmptyString
  | String a rest => (encode_utf8_char a ++ encode_utf8 rest)%string
  end.

(** A salt is 22 characters and a digest 31 characters of the alphabet,
    which encode 128 and 184 bits. *)
Definition valid_salt (salt : string) : bool :=
  (String.length salt =? 22)%nat && all_in HASH64_CHARS salt
  && ends_in ".Oeu" salt.

Definition valid_checksum (chk : string) : bool :=
  (String.length chk =? 31)%nat && all_in HASH64_CHARS chk
  && ends_in ".CGKOSWaeimquy26" chk.

(** [to_string] without the digest. *)
Definition config (salt : string) : string := ("$2b$12$" ++ salt)%string.

(** [from_string] on the hashes that [to_string] writes under the
    defaults: the salt and the digest. *)
Definition from_string (hash : string) : option (string * string) :=
  if String.prefix "$2b$12$" hash then
    let data := drop 7 hash in
    let salt := substring 0 22 data in
    let chk := drop 22 data in
    if valid_salt salt && valid_checksum chk then Some (salt, chk) else None
  else None.

Section Handler.
Context (raw : string -> string -> string).
Context (other : string -> string -> result bool).

(** [_calc_checksum]: the size of the encoded key is checked once more,
    a key with a NUL byte is refused, and [hashpw] reads no more than 72
    bytes of it. *)
Definition calc_checksum (salt secret : string) : result string :=
  let secret := encode_utf8 secret in
  if (MAX_PASSWORD_SIZE <? String.length secret)%nat
  then Raise (LibraryError "PasswordSizeError")
  else if contains Ascii.zero secret
  then Raise (LibraryError "NullPasswordError")
  else Ok (raw (config salt) (substring 0 72 secret)).

(** [bcrypt.hash(secret)], [salt] being the salt it generates. *)
Definition hash (salt secret : string) : result string :=
  if (MAX_PASSWORD_SIZE <? String.length secret)%nat
  then Raise (LibraryError "PasswordSizeError")
  else
    chk <- calc_checksum salt secret ;;
    Ok (config salt ++ chk)%string.

(** [bcrypt.verify(secret, hash)]. *)
Definition verify (secret hash : string) : result bool :=
  if (MAX_PASSWORD_SIZE <? String.length secret)%nat
  then Raise (LibraryError "PasswordSizeError")
  else
    match from_string hash with
    | None => other secret hash
    | Some (salt, chk) =>
        chk' <- calc_checksum salt secret ;;
        Ok (chk' =? chk)%string
    end.
End Handler.

(** An environment whose password hasher is this handler. *)
Definition env (base : Env.t) (raw : string -> string -> string)
    (other : string -> string -> result bool) : Env.t :=
  Env.mk (Env.settings base) (Env.jwt_encode base) (Env.jwt_decode base)
         (hash raw) (verify raw other).
End Bcrypt.

(** ** app/auth.py: passwords, access tokens, the current user *)

Section Auth.
Context (E : Env.t).

Definition verify_password (plain_password hashed_password : string)
  : result bool :=
  Passlib.verify E plain_password hashed_password.

Definition get_password_hash (salt password : string) : result string :=
  Passlib.hash E salt password.

(** [create_access_token].  An [expires_delta] of 0 is false in Python
    and gives the default lifetime.  The readings of [datetime.now] for
    [exp] and for [iat] are taken at one instant [now], and a [datetime]
    is unbounded here: the [OverflowError] that Python raises for an
    expiry beyond the year 9999 has no counterpart. *)
Definition create_access_token (data : Dict) (expires_delta : option Z)
    (now : datetime) : string :=
  let to_encode := data in
  let default :=
    now + timedelta_minutes
            (Settings.ACCESS_TOKEN_EXPIRE_MINUTES (Env.settings E)) in
  let expire :=
    match expires_delta with
    | Some d => if d =? 0 then default else now + timedelta_minutes d
    | None => default
    end in
  let to_encode :=
    dict_update to_encode
      [("exp", VDatetime expire); ("iat", VDatetime now);
       ("type", VStr "access")] in
  Env.jwt_encode E to_encode
    (Settings.SECRET_KEY (Env.settings E))
    (Settings.ALGORITHM (Env.settings E)).

Definition decode_access_token (token : string) (now : datetime)
  : option Dict :=
  Env.jwt_decode E token
    (Settings.SECRET_KEY (Env.settings E))
    [Settings.ALGORITHM (Env.settings E)] now.

Definition credentials_exception : exn :=
  HTTPException 401 "Could not validate credentials".

Definition get_current_user (token : string) (db : Session) (now : datetime)
  : result User.t :=
  match Env.jwt_decode E token
          (Settings.SECRET_KEY (Env.settings E))
          [Settings.ALGORITHM (Env.settings E)] now with
  | None => Raise credentials_exception
  | Some payload =>
      match dict_get "sub" payload with
      | None => Raise credentials_exception
      | Some username =>
          match Query.first
                  (fun u => value_eqb_string username (User.username u))
                  (users db) with
          | None => Raise credentials_exception
          | Some user => Ok user
          end
      end
  end.

Definition get_current_active_user (token : string) (db : Session)
    (now : datetime) : result User.t :=
  current_user <- get_current_user token db now ;;
  if negb (User.is_active current_user)
  then Raise (HTTPException 400 "Inactive user")
  else Ok current_user.

(** The filter of [authenticate_user]. *)
Definition has_identifier (identifier : string) (u : User.t) : bool :=
  (User.username u =? identifier)%string || (User.email u =? identifier)%string.

Definition authenticate_user (username password : string) (db : Session)
  : result (option User.t) :=
  match Query.first (has_identifier username) (users db) with
  | None => Ok None
  | Some user =>
      ok <- verify_password password (User.hashed_password user) ;;
      if negb ok then Ok None else Ok (Some user)
  end.
End Auth.

(** ** app/schemas.py *)

Module schemas.
Record UserCreate := mkUserCreate {
  email : string;
  username : string;
  password : string
}.

Record LoginRequest := mkLoginRequest {
  login_username : string;
  login_password : string;
  remember_me : bool
}.

Record PasswordChangeRequest := mkPasswordChangeRequest {
  current_password : string;
  new_password : string
}.

(** The response models. *)
Inductive Response :=
| UserResponse (user : User.t)
| TokenResponse (access_token : string) (refresh_token : option string)
                (token_type : string) (expires_in : Z)
| MessageResponse (message : string).
End schemas.

(** What a handler reads from the request object besides its body. *)
Record Request := mkRequest {
  header_user_agent : option string;
  client_host : option string
}.

(** ** app/auth_routes.py

    An endpoint returns its outcome together with the store as it is
    committed when the request ends. *)

(** The store after it refused an insert into [refresh_tokens]: a row
    that violates a constraint has drawn its id from the sequence before
    it is refused, a value wider than its column is refused before that. *)
Definition refused_insert (e : exn) (db : Session) : Session :=
  match e with
  | IntegrityError _ =>
      mkSession (users db) (refresh_tokens db)
                (users_id_seq db) (refresh_tokens_id_seq db + 1)
  | _ => db
  end.

Definition str_of_nat (n : nat) : string :=
  DecimalString.NilEmpty.string_of_uint (Nat.to_uint n).

(** [UPDATE users SET hashed_password = ... WHERE id = pk].  The store
    writes the new version of the row behind the rows it holds, so a
    query without an order meets the updated row last. *)
Definition update_hashed_password (pk : Z) (h : string) (now : datetime)
    (rows : list User.t) : list User.t :=
  filter (fun u => negb (User.id u =? pk)) rows
  ++ map (User.set_hashed_password h now) (filter (fun u => User.id u =? pk) rows).

(** [DELETE FROM users WHERE id = pk], with the cascade declared on
    [refresh_tokens.user_id]. *)
Definition delete_user (pk : Z) (db : Session) : Session :=
  mkSession
    (filter (fun u => negb (User.id u =? pk)) (users db))
    (filter (fun r => negb (RefreshToken.user_id r =? pk)) (refresh_tokens db))
    (users_id_seq db) (refresh_tokens_id_seq db).

Section Routes.
Context (E : Env.t).

Definition expires_in : Z :=
  Settings.ACCESS_TOKEN_EXPIRE_MINUTES (Env.settings E) * 60.

Definition register (user : schemas.UserCreate) (db : Session)
    (salt : string) (now : datetime) : result schemas.Response * Session :=
  match Query.first
          (fun u => (User.email u =? schemas.email user)%string
                    || (User.username u =? schemas.username user)%string)
          (users db) with
  | Some existing_user =>
      if (User.email existing_user =? schemas.email user)%string
      then (Raise (HTTPException 400 "Email already registered"), db)
      else (Raise (HTTPException 400 "Username already taken"), db)
  | None =>
      match get_password_hash E salt (schemas.password user) with
      | Raise e => (Raise e, db)
      | Ok hashed_password =>
          let new_user :=
            User.mk (users_id_seq db) (schemas.email user)
                    (schemas.username user) hashed_password
                    true false now None in
          (Ok (schemas.UserResponse new_user),
           mkSession (users db ++ [new_user]) (refresh_tokens db)
                     (users_id_seq db + 1) (refresh_tokens_id_seq db))
      end
  end.

Definition login_oauth2 (username password : string) (db : Session)
    (now : datetime) : result schemas.Response * Session :=
  match authenticate_user E username password db with
  | Raise e => (Raise e, db)
  | Ok None =>
      (Raise (HTTPException 401 "Incorrect username or password"), db)
  | Ok (Some user) =>
      if negb (User.is_active user)
      then (Raise (HTTPException 403
                     "Account is inactive. Please contact support."), db)
      else
        let access_token :=
          create_access_token E [("sub", VStr (User.username user))] None now in
        (Ok (schemas.TokenResponse access_token None "bearer" expires_in), db)
  end.

Definition login_json (login_data : schemas.LoginRequest) (request : Request)
    (db : Session) (urandom : string) (now : datetime)
  : result schemas.Response * Session :=
  match authenticate_user E (schemas.login_username login_data)
                          (schemas.login_password login_data) db with
  | Raise e => (Raise e, db)
  | Ok None =>
      (Raise (HTTPException 401 "Incorrect username or password"), db)
  | Ok (Some user) =>
      if negb (User.is_active user)
      then (Raise (HTTPException 403
                     "Account is inactive. Please contact support."), db)
      else
        let access_token :=
          create_access_token E [("sub", VStr (User.username user))] None now in
        if schemas.remember_me login_data then
          match create_refresh_token (Env.settings E) (User.id user) db
                  (header_user_agent request) (client_host request)
                  urandom now with
          | Raise e => (Raise e, refused_insert e db)
          | Ok (refresh_token, db') =>
              (Ok (schemas.TokenResponse access_token (Some refresh_token)
                                         "bearer" expires_in), db')
          end
        else
          (Ok (schemas.TokenResponse access_token None "bearer" expires_in), db)
  end.

Definition refresh_access_token (refresh_token : string) (db : Session)
    (now : datetime) : result schemas.Response * Session :=
  match verify_refresh_token refresh_token db now with
  | None =>
      (Raise (HTTPException 401 "Invalid or expired refresh token"), db)
  | Some user_id =>
      if user_id =? 0
      then (Raise (HTTPException 401 "Invalid or expired refresh token"), db)
      else
        match Query.first (fun u => User.id u =? user_id) (users db) with
        | None => (Raise (HTTPException 404 "User not found"), db)
        | Some user =>
            if negb (User.is_active user)
            then (Raise (HTTPException 403 "Account is inactive"), db)
            else
              let access_token :=
                create_access_token E [("sub", VStr (User.username user))]
                                    None now in
              (Ok (schemas.TokenResponse access_token None "bearer" expires_in),
               db)
        end
  end.

Definition logout (refresh_token : string) (db : Session) (now : datetime)
  : result schemas.Response * Session :=
  let '(revoked, db') := revoke_refresh_token refresh_token db now in
  if negb revoked
  then (Raise (HTTPException 404 "Refresh token not found"), db')
  else (Ok (schemas.MessageResponse "Successfully logged out"), db').

Definition logout_all (token : string) (db : Session) (now : datetime)
    (clock : nat -> datetime) : result schemas.Response * Session :=
  match get_current_active_user E token db now with
  | Raise e => (Raise e, db)
  | Ok current_user =>
      let '(count, db') := revoke_all_user_tokens (User.id current_user) db clock in
      (Ok (schemas.MessageResponse
             ("Successfully logged out from " ++ str_of_nat count ++ " device(s)")%string),
       db')
  end.

Definition get_current_user_info (token : string) (db : Session)
    (now : datetime) : result schemas.Response * Session :=
  match get_current_active_user E token db now with
  | Raise e => (Raise e, db)
  | Ok current_user => (Ok (schemas.UserResponse current_user), db)
  end.

Definition change_password (password_data : schemas.PasswordChangeRequest)
    (token : string) (db : Session) (salt : string) (now : datetime)
    (clock : nat -> datetime) : result schemas.Response * Session :=
  match get_current_active_user E token db now with
  | Raise e => (Raise e, db)
  | Ok current_user =>
      match verify_password E (schemas.current_password password_data)
                            (User.hashed_password current_user) with
      | Raise e => (Raise e, db)
      | Ok false =>
          (Raise (HTTPException 400 "Current password is incorrect"), db)
      | Ok true =>
          match get_password_hash E salt (schemas.new_password password_data) with
          | Raise e => (Raise e, db)
          | Ok h =>
              let db1 :=
                set_users (update_hashed_password (User.id current_user) h now
                                                  (users db)) db in
              let '(_, db2) :=
                revoke_all_user_tokens (User.id current_user) db1 clock in
              (Ok (schemas.MessageResponse
                     "Password changed successfully. Please login again."),
               db2)
          end
      end
  end.

Definition delete_account (token : string) (db : Session) (now : datetime)
    (clock : nat -> datetime) : result schemas.Response * Session :=
  match get_current_active_user E token db now with
  | Raise e => (Raise e, db)
  | Ok current_user =>
      let '(_, db1) :=
        revoke_all_user_tokens (User.id current_user) db clock in
      (Ok (schemas.MessageResponse "Account deleted successfully"),
       delete_user (User.id current_user) db1)
  end.
End Routes.

(** ** The API as a transition system

    A call names an endpoint with the body and the bearer token it is
    sent; [Inputs] is what the handler then reads from its environment. *)

Inductive Call :=
| POST_register (user : schemas.UserCreate)
| POST_login (username password : string)
| POST_login_json (login_data : schemas.LoginRequest) (request : Request)
| POST_refresh (refresh_token : string)
| POST_logout (refresh_token : string)
| POST_logout_all (bearer : string)
| GET_me (bearer : string)
| PUT_change_password (password_data : schemas.PasswordChangeRequest) (bearer : string)
| DELETE_delete_account (bearer : string).

Record Inputs := mkInputs {
  now : datetime;
  clock : nat -> datetime;
  salt : string;
  urandom : string
}.

Definition handle (E : Env.t) (c : Call) (i : Inputs) (db : Session)
  : result schemas.Response * Session :=
  match c with
  | POST_register user => register E user db (salt i) (now i)
  | POST_login username password => login_oauth2 E username password db (now i)
  | POST_login_json login_data request =>
      login_json E login_data request db (urandom i) (now i)
  | POST_refresh refresh_token => refresh_access_token E refresh_token db (now i)
  | POST_logout refresh_token => logout refresh_token db (now i)
  | POST_logout_all bearer => logout_all E bearer db (now i) (clock i)
  | GET_me bearer => get_current_user_info E bearer db (now i)
  | PUT_change_password password_data bearer =>
      change_password E password_data bearer db (salt i) (now i) (clock i)
  | DELETE_delete_account bearer => delete_account E bearer db (now i) (clock i)
  end.

(** The store after a sequence of calls. *)
Fixpoint run (E : Env.t) (calls : list (Call * Inputs)) (db : Session) : Session :=
  match calls with
  | [] => db
  | (c, i) :: rest => run E rest (snd (handle E c i db))
  end.

(** The constraints that [app/models.py] declares on the two tables:
    primary keys drawn from a sequence, unique [email], [username] and
    [token] columns, and the foreign key of [refresh_tokens.user_id]. *)
Record well_formed (db : Session) : Prop := {
  wf_user_ids : NoDup (map User.id (users db));
  wf_user_seq : forall u, In u (users db) -> User.id u < users_id_seq db;
  wf_usernames : NoDup (map User.username (users db));
  wf_emails : NoDup (map User.email (users db));
  wf_token_ids : NoDup (map RefreshToken.id (refresh_tokens db));
  wf_token_seq :
    forall r, In r (refresh_tokens db) -> RefreshToken.id r < refresh_tokens_id_seq db;
  wf_tokens : NoDup (map RefreshToken.token (refresh_tokens db));
  wf_foreign_key :
    forall r, In r (refresh_tokens db) ->
      exists u, In u (users db) /\ User.id u = RefreshToken.user_id r
}.

Definition empty_session : Session := mkSession [] [] 1 1.

(** ** A concrete environment, to evaluate the definitions

    Tokens are the subject prefixed by the key, passwords are hashed by
    prefixing them with a bcrypt identifier and the salt. *)
Module Sample.
Definition settings : Settings.t :=
  Settings.mk "k" "HS256" 30 30 false.

Definition jwt_encode (claims : Dict) (key alg : string) : string :=
  match dict_get "sub" claims with
  | Some (VStr s) => (key ++ "." ++ s)%string
  | _ => (key ++ ".")%string
  end.

Definition jwt_decode (token key : string) (algs : list string)
    (now : datetime) : option Dict :=
  if String.prefix (key ++ ".")%string token
  then Some [("sub", VStr (substring 2 (String.length token - 2) token))]
  else None.

Definition bcrypt_hash (salt secret : string) : result string :=
  Ok ("$2b$" ++ salt ++ "$" ++ secret)%string.

Definition bcrypt_verify (secret hash : string) : result bool :=
  Ok (String.prefix "$2b$" hash
      && (substring (String.length hash - String.length secret)
                    (String.length secret) hash =? secret)%string).

Definition env : Env.t :=
  Env.mk settings jwt_encode jwt_decode bcrypt_hash bcrypt_verify.

Definition alice : User.t :=
  User.mk 1 "alice@example.com" "alice" "$2b$s$pw-alice" true false 0 None.
Definition bob : User.t :=
  User.mk 2 "bob@example.com" "bob" "$2b$s$pw-bob" false false 0 None.

Definition tok (id user_id : Z) (token : string) (expires_at : datetime)
    (is_revoked : bool) : RefreshToken.t :=
  RefreshToken.mk id user_id token expires_at 0 is_revoked
                  (if is_revoked then Some 5 else None) None None None.

(** Alice has three active and two revoked refresh tokens, Bob has one
    active token. *)
Definition db : Session :=
  mkSession [alice; bob]
    [tok 1 1 "t1" 100 false; tok 2 1 "t2" 100 true; tok 3 2 "t3" 100 false;
     tok 4 1 "t4" 100 false; tok 5 1 "t5" 100 true; tok 6 1 "t6" 100 false]
    3 7.

Definition inputs (now : datetime) : Inputs :=
  mkInputs now (fun k => now + Z.of_nat k) "s" "fresh".

(** A digest for the bcrypt handler: the first byte of the key, as far
    as it is a character of the alphabet. *)
Definition raw (config key : string) : string :=
  let filler := ".............................." in
  match key with
  | String a _ =>
      if Bcrypt.contains a Bcrypt.HASH64_CHARS then String a filler
      else String "." filler
  | EmptyString => String "." filler
  end.

Definition other (secret hash : string) : result bool :=
  Raise (LibraryError "MalformedHashError").

Definition bcrypt_env : Env.t := Bcrypt.env env raw other.

Definition bcrypt_salt : string := "abcdefghijklmnopqrstuu".
End Sample.

(** ** Specification vocabulary *)

(** A row is a valid refresh token for [token] at [now]. *)
Definition valid_row (token : string) (now : datetime) (r : RefreshToken.t) : Prop :=
  RefreshToken.token r = token
  /\ RefreshToken.is_revoked r = false
  /\ now < RefreshToken.expires_at r.

(** How [revoke_all_user_tokens] relates a row before to the same row
    after: an active row of the user is revoked and stamped with one of
    the clock readings below [count], any other row is as it was. *)
Definition revoked_by_loop (user_id : Z) (clock : nat -> datetime) (lo hi : nat)
    (r r' : RefreshToken.t) : Prop :=
  (RefreshToken.user_id r = user_id /\ RefreshToken.is_revoked r = false
   /\ exists k, (lo <= k < hi)%nat /\ r' = RefreshToken.revoke (clock k) r)
  \/ ((RefreshToken.user_id r <> user_id \/ RefreshToken.is_revoked r = true)
      /\ r' = r).

(** What passlib has against a password before bcrypt sees it: more
    than 4096 characters, or bytes once encoded, or a NUL. *)
Definition password_error (secret : string) : option exn :=
  if (Bcrypt.MAX_PASSWORD_SIZE <? String.length secret)%nat
     || (Bcrypt.MAX_PASSWORD_SIZE <? String.length (Bcrypt.encode_utf8 secret))%nat
  then Some (LibraryError "PasswordSizeError")
  else if Bcrypt.contains Ascii.zero (Bcrypt.encode_utf8 secret)
       then Some (LibraryError "NullPasswordError")
       else None.

(** The bytes of a password that bcrypt reads. *)
Definition bcrypt_key (secret : string) : string :=
  substring 0 72 (Bcrypt.encode_utf8 secret).

(** Every stored row with this token string is revoked. *)
Definition all_revoked (token : string) (db : Session) : Prop :=
  forall r, In r (refresh_tokens db) ->
    RefreshToken.token r = token -> RefreshToken.is_revoked r = true.

(** What every update of a refresh-token row preserves: the key columns
    and a set [is_revoked] flag. *)
Definition same_keys (r r' : RefreshToken.t) : Prop :=
  RefreshToken.id r' = RefreshToken.id r
  /\ RefreshToken.user_id r' = RefreshToken.user_id r
  /\ RefreshToken.token r' = RefreshToken.token r
  /\ RefreshToken.expires_at r' = RefreshToken.expires_at r
  /\ (RefreshToken.is_revoked r = true -> RefreshToken.is_revoked r' = true).

(** What every update of a user row preserves. *)
Definition same_identity (u u' : User.t) : Prop :=
  User.id u' = User.id u
  /\ User.username u' = User.username u
  /\ User.email u' = User.email u
  /\ User.is_active u' = User.is_active u.

(** The ways a request changes the store: rows updated in place, a user
    inserted (under a username that [U] allows), a refresh token inserted
    (its token string is one that [P] allows), a user deleted with the
    rows that reference it, the hash of a user replaced, an id of the
    refresh-token sequence used up by a refused insert. *)
Inductive transition (P U : string -> Prop) : Session -> Session -> Prop :=
| t_update db db' :
    Forall2 same_identity (users db) (users db') ->
    Forall2 same_keys (refresh_tokens db) (refresh_tokens db') ->
    users_id_seq db' = users_id_seq db ->
    refresh_tokens_id_seq db' = refresh_tokens_id_seq db ->
    transition P U db db'
| t_insert_user db u :
    User.id u = users_id_seq db ->
    U (User.username u) ->
    (forall u', In u' (users db) ->
       User.username u' <> User.username u /\ User.email u' <> User.email u) ->
    transition P U db
      (mkSession (users db ++ [u]) (refresh_tokens db)
                 (users_id_seq db + 1) (refresh_tokens_id_seq db))
| t_insert_token db r :
    RefreshToken.id r = refresh_tokens_id_seq db ->
    P (RefreshToken.token r) ->
    (forall r', In r' (refresh_tokens db) ->
       RefreshToken.token r' <> RefreshToken.token r) ->
    (exists u, In u (users db) /\ User.id u = RefreshToken.user_id r) ->
    transition P U db
      (mkSession (users db) (refresh_tokens db ++ [r])
                 (users_id_seq db) (refresh_tokens_id_seq db + 1))
| t_delete_user db pk :
    transition P U db (delete_user pk db)
| t_update_hash db pk h now :
    transition P U db
      (set_users (update_hashed_password pk h now (users db)) db)
| t_refused_insert db e :
    transition P U db (refused_insert e db)
| t_trans db1 db2 db3 :
    transition P U db1 db2 -> transition P U db2 db3 -> transition P U db1 db3.

(** The token string that a call may draw from [secrets.token_urlsafe]:
    only the JSON login does, when [remember_me] is set. *)
Definition draws (c : Call) (i : Inputs) (token : string) : Prop :=
  match c with
  | POST_login_json login_data _ =>
      schemas.remember_me login_data = true /\ urandom i = token
  | _ => False
  end.

(** The username under which a call may insert a user. *)
Definition registers (c : Call) (username : string) : Prop :=
  match c with
  | POST_register user => schemas.username user = username
  | _ => False
  end.

(** The usernames under which a sequence of calls may insert users. *)
Definition registered (calls : list (Call * Inputs)) (username : string) : Prop :=
  Exists (fun ci => registers (fst ci) username) calls.

(** The token strings that a sequence of calls may draw. *)
Definition drawn (calls : list (Call * Inputs)) (token : string) : Prop :=
  Exists (fun ci => draws (fst ci) (snd ci) token) calls.

(** The row [r0], once revoked, is either still stored and revoked or gone
    for good together with its owner. *)
Definition revoked_for_good (r0 : RefreshToken.t) (db : Session) : Prop :=
  RefreshToken.id r0 < refresh_tokens_id_seq db
  /\ ((exists r, In r (refresh_tokens db)
                 /\ same_keys r0 r /\ RefreshToken.is_revoked r = true)
      \/ ((forall u, In u (users db) -> User.id u <> RefreshToken.user_id r0)
          /\ RefreshToken.user_id r0 < users_id_seq db
          /\ (forall r, In r (refresh_tokens db) ->
                RefreshToken.id r <> RefreshToken.id r0))).

(** No stored row makes [token] valid at [now] or later: each row with
    this token string is revoked or has expired by [now]. *)
Definition dead_at (token : string) (now : datetime) (db : Session) : Prop :=
  forall r, In r (refresh_tokens db) ->
    RefreshToken.token r = token ->
    RefreshToken.is_revoked r = true \/ RefreshToken.expires_at r <= now.

(** ** Properties of the refresh-token manager *)

Lemma is_valid_for_iff token now r :
  is_valid_for token now r = true <-> valid_row token now r.
Proof.
  unfold is_valid_for, valid_row.
  rewrite !andb_true_iff, negb_true_iff, String.eqb_eq, Z.ltb_lt. tauto.
Qed.

Lemma is_active_token_of_iff user_id r :
  is_active_token_of user_id r = true
  <-> RefreshToken.user_id r = user_id /\ RefreshToken.is_revoked r = false.
Proof.
  unfold is_active_token_of.
  rewrite andb_true_iff, negb_true_iff, Z.eqb_eq. tauto.
Qed.

Lemma is_active_token_of_false user_id r :
  is_active_token_of user_id r = false
  <-> RefreshToken.user_id r <> user_id \/ RefreshToken.is_revoked r = true.
Proof.
  unfold is_active_token_of.
  rewrite andb_false_iff, negb_false_iff, Z.eqb_neq. tauto.
Qed.

Lemma verify_refresh_token_Some token db now uid :
  verify_refresh_token token db now = Some uid ->
  exists r, In r (refresh_tokens db) /\ valid_row token now r
            /\ RefreshToken.user_id r = uid.
Proof.
  unfold verify_refresh_token, Query.first.
  destruct (find _ _) as [r|] eqn:F; [|discriminate].
  intros [= <-]. apply find_some in F as [Hin Hv].
  exists r. rewrite is_valid_for_iff in Hv. auto.
Qed.

Lemma verify_refresh_token_None token db now :
  verify_refresh_token token db now = None
  <-> forall r, In r (refresh_tokens db) -> ~ valid_row token now r.
Proof.
  unfold verify_refresh_token, Query.first. split.
  - destruct (find _ _) eqn:F; [discriminate|]. intros _ r Hin Hv.
    apply (find_none _ _ F) in Hin. apply is_valid_for_iff in Hv. congruence.
  - intros H. destruct (find _ _) as [r|] eqn:F; [|reflexivity].
    apply find_some in F as [Hin Hv]. apply is_valid_for_iff in Hv.
    exfalso. eapply H; eauto.
Qed.

Lemma all_revoked_verify token db now :
  all_revoked token db -> verify_refresh_token token db now = None.
Proof.
  intros H. apply verify_refresh_token_None. intros r Hin (Ht & Hr & _).
  rewrite (H r Hin Ht) in Hr. discriminate.
Qed.

Lemma NoDup_map_inj {A B} (f : A -> B) (l : list A) x y :
  NoDup (map f l) -> In x l -> In y l -> f x = f y -> x = y.
Proof.
  induction l as [|a l IH]; simpl; [tauto|].
  intros Hnd Hx Hy Hf. inversion Hnd as [|? ? Hnotin Hnd']; subst.
  destruct Hx as [<-|Hx], Hy as [<-|Hy]; auto.
  - exfalso. apply Hnotin. rewrite Hf. now apply in_map.
  - exfalso. apply Hnotin. rewrite <- Hf. now apply in_map.
Qed.

(** C2. [verify_refresh_token] returns a user id only for a stored row
    with exactly that token string which is not revoked and expires
    strictly after the current time, and then the id is the row's owner;
    it returns [None] exactly when no such row exists, whatever the cause
    (unknown, revoked or expired); with token strings unique, as the
    table declares them, the answer is the owner of the one valid row. *)
Theorem verify_refresh_token_spec (token : string) (db : Session) (now : datetime) :
  (forall uid, verify_refresh_token token db now = Some uid ->
     exists r, In r (refresh_tokens db) /\ RefreshToken.token r = token
               /\ RefreshToken.is_revoked r = false
               /\ now < RefreshToken.expires_at r
               /\ RefreshToken.user_id r = uid)
  /\ (verify_refresh_token token db now = None <->
      forall r, In r (refresh_tokens db) ->
        RefreshToken.token r <> token
        \/ RefreshToken.is_revoked r = true
        \/ RefreshToken.expires_at r <= now)
  /\ (NoDup (map RefreshToken.token (refresh_tokens db)) ->
      forall uid, verify_refresh_token token db now = Some uid <->
        exists r, In r (refresh_tokens db) /\ RefreshToken.token r = token
                  /\ RefreshToken.is_revoked r = false
                  /\ now < RefreshToken.expires_at r
                  /\ RefreshToken.user_id r = uid).
Proof.
  split; [|split].
  - intros uid H. apply verify_refresh_token_Some in H as (r & Hin & (Ht & Hr & He) & Hu).
    exists r. auto.
  - rewrite verify_refresh_token_None. unfold valid_row. split; intros H r Hin.
    + specialize (H r Hin).
      destruct (String.eqb_spec (RefreshToken.token r) token); [|auto].
      destruct (RefreshToken.is_revoked r); [auto|].
      destruct (Z.ltb_spec now (RefreshToken.expires_at r)); [|auto].
      exfalso. apply H. auto.
    + intros (Ht & Hr & He). destruct (H r Hin) as [?|[?|?]]; [congruence|congruence|lia].
  - intros Hnd uid. split.
    + intros H. apply verify_refresh_token_Some in H as (r & Hin & (Ht & Hr & He) & Hu).
      exists r. auto.
    + intros (r & Hin & Ht & Hr & He & Hu).
      destruct (verify_refresh_token token db now) as [uid'|] eqn:V.
      * apply verify_refresh_token_Some in V as (r' & Hin' & (Ht' & _) & Hu').
        assert (r' = r) by (eapply NoDup_map_inj; eauto; congruence).
        congruence.
      * rewrite verify_refresh_token_None in V. exfalso. apply (V r Hin).
        unfold valid_row. auto.
Qed.

(** The theorem at the sample store: the active token [t1] of Alice. *)
Lemma verify_refresh_token_spec_witness :
  verify_refresh_token "t1" Sample.db 50 = Some 1.
Proof.
  apply (proj2 (proj2 (verify_refresh_token_spec "t1" Sample.db 50))).
  - repeat constructor; simpl; intuition discriminate.
  - exists (Sample.tok 1 1 "t1" 100 false). simpl. intuition lia.
Defined.

Lemma find_split {A} (p : A -> bool) (l : list A) (x : A) :
  find p l = Some x ->
  exists l1 l2, l = l1 ++ x :: l2 /\ p x = true /\ forall y, In y l1 -> p y = false.
Proof.
  induction l as [|a l IH]; simpl; [discriminate|].
  destruct (p a) eqn:Pa.
  - intros [= ->]. exists [], l. simpl. tauto.
  - intros F. destruct (IH F) as (l1 & l2 & -> & Px & Hl1).
    exists (a :: l1), l2. simpl. repeat split; auto.
    intros y [<-|Hy]; auto.
Qed.

Lemma revoke_first_split token now l1 r l2 :
  RefreshToken.token r = token ->
  (forall y, In y l1 -> (RefreshToken.token y =? token)%string = false) ->
  revoke_first token now (l1 ++ r :: l2) = l1 ++ RefreshToken.revoke now r :: l2.
Proof.
  intros Hr. induction l1 as [|a l1 IH]; simpl; intros H.
  - rewrite <- Hr, String.eqb_refl. reflexivity.
  - rewrite (H a) by auto. f_equal. apply IH. auto.
Qed.

(** C8. [revoke_refresh_token] returns [True] exactly when some row
    carries the token string, whether or not that row was revoked
    before: the first such row then has [is_revoked] set and [revoked_at]
    overwritten with the current time, and nothing else changes.  It
    returns [False] and leaves the store as it was when no row matches. *)
Theorem revoke_refresh_token_spec (token : string) (db : Session) (now : datetime) :
  (fst (revoke_refresh_token token db now) = true <->
     exists r, In r (refresh_tokens db) /\ RefreshToken.token r = token)
  /\ (fst (revoke_refresh_token token db now) = false ->
      snd (revoke_refresh_token token db now) = db)
  /\ (fst (revoke_refresh_token token db now) = true ->
      exists l1 r l2,
        refresh_tokens db = l1 ++ r :: l2
        /\ RefreshToken.token r = token
        /\ (forall y, In y l1 -> RefreshToken.token y <> token)
        /\ snd (revoke_refresh_token token db now)
           = set_refresh_tokens (l1 ++ RefreshToken.revoke now r :: l2) db
        /\ RefreshToken.is_revoked (RefreshToken.revoke now r) = true
        /\ RefreshToken.revoked_at (RefreshToken.revoke now r) = Some now).
Proof.
  unfold revoke_refresh_token, Query.first.
  destruct (find _ _) as [r|] eqn:F; simpl.
  - split; [|split]; [|discriminate|].
    + split; [intros _|reflexivity].
      apply find_some in F as [Hin Ht]. apply String.eqb_eq in Ht. eauto.
    + intros _. apply find_split in F as (l1 & l2 & Hrows & Ht & Hl1).
      apply String.eqb_eq in Ht. exists l1, r, l2.
      rewrite Hrows at 2. rewrite revoke_first_split by auto.
      repeat split; auto.
      intros y Hy. apply String.eqb_neq. auto.
  - split; [|split]; [|reflexivity|discriminate].
    split; [discriminate|]. intros (r & Hin & Ht).
    apply (find_none _ _ F) in Hin. apply String.eqb_eq in Ht. congruence.
Qed.

(** The theorem on a token that is already revoked: [t2] in the sample
    store is found again and stamped again. *)
Lemma revoke_refresh_token_spec_witness :
  fst (revoke_refresh_token "t2" Sample.db 60) = true
  /\ exists l1 r l2,
       refresh_tokens Sample.db = l1 ++ r :: l2
       /\ RefreshToken.token r = "t2"
       /\ (forall y, In y l1 -> RefreshToken.token y <> "t2")
       /\ snd (revoke_refresh_token "t2" Sample.db 60)
          = set_refresh_tokens (l1 ++ RefreshToken.revoke 60 r :: l2) Sample.db
       /\ RefreshToken.is_revoked (RefreshToken.revoke 60 r) = true
       /\ RefreshToken.revoked_at (RefreshToken.revoke 60 r) = Some 60.
Proof.
  split; [reflexivity|].
  apply (proj2 (proj2 (revoke_refresh_token_spec "t2" Sample.db 60))).
  reflexivity.
Defined.

Lemma revoke_loop_spec user_id clock rows :
  forall count,
    let '(rows', n) := revoke_loop user_id clock rows count in
    n = (count + List.length (Query.all (is_active_token_of user_id) rows))%nat
    /\ Forall2 (revoked_by_loop user_id clock count n) rows rows'.
Proof.
  unfold Query.all.
  induction rows as [|r rows IH]; simpl; intros count.
  - split; [lia|constructor].
  - destruct (is_active_token_of user_id r) eqn:A.
    + specialize (IH (S count)).
      destruct (revoke_loop user_id clock rows (S count)) as [rows' n].
      destruct IH as [Hn HF]. simpl. split; [lia|].
      apply is_active_token_of_iff in A as [Hu Hr].
      constructor.
      * left. repeat split; auto. exists count. split; [lia|reflexivity].
      * eapply Forall2_impl; [|exact HF].
        intros a b [(?&?&k&?&?)|[? ?]]; [left|right]; repeat split; auto.
        exists k. split; [lia|auto].
    + specialize (IH count).
      destruct (revoke_loop user_id clock rows count) as [rows' n].
      destruct IH as [Hn HF]. split; [lia|].
      apply is_active_token_of_false in A.
      constructor; [right; auto|exact HF].
Qed.

Lemma revoked_by_loop_keys user_id clock lo hi r r' :
  revoked_by_loop user_id clock lo hi r r' ->
  RefreshToken.id r' = RefreshToken.id r
  /\ RefreshToken.user_id r' = RefreshToken.user_id r
  /\ RefreshToken.token r' = RefreshToken.token r
  /\ RefreshToken.expires_at r' = RefreshToken.expires_at r
  /\ (RefreshToken.is_revoked r = true -> RefreshToken.is_revoked r' = true)
  /\ (RefreshToken.user_id r = user_id -> RefreshToken.is_revoked r' = true).
Proof.
  intros [(Hu & Hr & k & _ & ->)|[H ->]]; simpl; [tauto|].
  repeat split; auto. intros Hu. destruct H; [contradiction|auto].
Qed.

Lemma Forall2_In_r {A B} (R : A -> B -> Prop) l l' y :
  Forall2 R l l' -> In y l' -> exists x, In x l /\ R x y.
Proof.
  induction 1; simpl; [tauto|].
  intros [<-|Hy]; [eauto|]. destruct (IHForall2 Hy) as (x' & ? & ?). eauto.
Qed.

Lemma Forall2_In_l {A B} (R : A -> B -> Prop) l l' x :
  Forall2 R l l' -> In x l -> exists y, In y l' /\ R x y.
Proof.
  induction 1; simpl; [tauto|].
  intros [<-|Hx]; [eauto|]. destruct (IHForall2 Hx) as (y' & ? & ?). eauto.
Qed.

Lemma revoke_all_user_tokens_rows user_id db clock :
  Forall2 (revoked_by_loop user_id clock 0
             (fst (revoke_all_user_tokens user_id db clock)))
          (refresh_tokens db)
          (refresh_tokens (snd (revoke_all_user_tokens user_id db clock)))
  /\ users (snd (revoke_all_user_tokens user_id db clock)) = users db
  /\ users_id_seq (snd (revoke_all_user_tokens user_id db clock)) = users_id_seq db
  /\ refresh_tokens_id_seq (snd (revoke_all_user_tokens user_id db clock))
     = refresh_tokens_id_seq db.
Proof.
  unfold revoke_all_user_tokens.
  pose proof (revoke_loop_spec user_id clock (refresh_tokens db) 0) as H.
  destruct (revoke_loop user_id clock (refresh_tokens db) 0) as [rows' n].
  simpl. tauto.
Qed.

Lemma revoke_all_user_tokens_not_valid user_id db clock token now :
  verify_refresh_token token (snd (revoke_all_user_tokens user_id db clock)) now
  <> Some user_id.
Proof.
  intros V. apply verify_refresh_token_Some in V as (r' & Hin & (_ & Hr & _) & Hu).
  destruct (revoke_all_user_tokens_rows user_id db clock) as (HF & _).
  destruct (Forall2_In_r _ _ _ _ HF Hin) as (r & _ & HR).
  apply revoked_by_loop_keys in HR as (_ & Hu' & _ & _ & _ & Hrev).
  rewrite Hrev in Hr by congruence. discriminate.
Qed.

Lemma Forall2_map_eq {A B} (f : A -> B) (R : A -> A -> Prop) l l' :
  (forall x y, R x y -> f y = f x) -> Forall2 R l l' -> map f l' = map f l.
Proof.
  intros HR. induction 1; simpl; [reflexivity|].
  f_equal; auto.
Qed.

Lemma revoked_by_loop_same_keys user_id clock lo hi r r' :
  revoked_by_loop user_id clock lo hi r r' -> same_keys r r'.
Proof.
  intros H. apply revoked_by_loop_keys in H. unfold same_keys. tauto.
Qed.

Lemma same_keys_tokens l l' :
  Forall2 same_keys l l' -> map RefreshToken.token l' = map RefreshToken.token l.
Proof. apply Forall2_map_eq. unfold same_keys. tauto. Qed.

Lemma same_keys_ids l l' :
  Forall2 same_keys l l' -> map RefreshToken.id l' = map RefreshToken.id l.
Proof. apply Forall2_map_eq. unfold same_keys. tauto. Qed.

Lemma revoke_all_user_tokens_same_keys user_id db clock :
  Forall2 same_keys (refresh_tokens db)
          (refresh_tokens (snd (revoke_all_user_tokens user_id db clock))).
Proof.
  destruct (revoke_all_user_tokens_rows user_id db clock) as (HF & _).
  eapply Forall2_impl; [|exact HF]. apply revoked_by_loop_same_keys.
Qed.

(** After [revoke_all_user_tokens], with unique token strings, no token
    string of a row of the user is valid. *)
Lemma revoke_all_user_tokens_all_revoked user_id db clock r :
  NoDup (map RefreshToken.token (refresh_tokens db)) ->
  In r (refresh_tokens (snd (revoke_all_user_tokens user_id db clock))) ->
  RefreshToken.user_id r = user_id ->
  all_revoked (RefreshToken.token r) (snd (revoke_all_user_tokens user_id db clock)).
Proof.
  intros Hnd Hin Hu r2 Hin2 Ht.
  rewrite <- (same_keys_tokens _ _ (revoke_all_user_tokens_same_keys user_id db clock))
    in Hnd.
  assert (r2 = r) as -> by (eapply NoDup_map_inj; eauto).
  destruct (revoke_all_user_tokens_rows user_id db clock) as (HF & _).
  destruct (Forall2_In_r _ _ _ _ HF Hin) as (r1 & _ & HR).
  apply revoked_by_loop_keys in HR as (_ & Hu' & _ & _ & _ & Hrev).
  apply Hrev. congruence.
Qed.

(** The fields of a row before and after [revoke_all_user_tokens]. *)
Lemma revoked_by_loop_fields user_id clock count r r' :
  revoked_by_loop user_id clock 0 count r r' ->
  RefreshToken.id r' = RefreshToken.id r
  /\ RefreshToken.user_id r' = RefreshToken.user_id r
  /\ RefreshToken.token r' = RefreshToken.token r
  /\ RefreshToken.expires_at r' = RefreshToken.expires_at r
  /\ RefreshToken.created_at r' = RefreshToken.created_at r
  /\ RefreshToken.revoked_reason r' = RefreshToken.revoked_reason r
  /\ RefreshToken.user_agent r' = RefreshToken.user_agent r
  /\ RefreshToken.ip_address r' = RefreshToken.ip_address r
  /\ (RefreshToken.user_id r = user_id -> RefreshToken.is_revoked r = false ->
      RefreshToken.is_revoked r' = true
      /\ exists k, (k < count)%nat /\ RefreshToken.revoked_at r' = Some (clock k))
  /\ (RefreshToken.user_id r <> user_id \/ RefreshToken.is_revoked r = true ->
      RefreshToken.is_revoked r' = RefreshToken.is_revoked r
      /\ RefreshToken.revoked_at r' = RefreshToken.revoked_at r
      /\ r' = r).
Proof.
  intros [(Hu & Hr & k & Hk & ->)|[H ->]]; simpl.
  - repeat (split; [reflexivity|]). split.
    + intros _ _. split; [reflexivity|]. exists k. split; [lia|reflexivity].
    + intros [Hne|Hrev]; [contradiction|congruence].
  - repeat (split; [reflexivity|]). split; [|auto].
    intros Hu Hr. destruct H; [contradiction|congruence].
Qed.

(** C3. [revoke_all_user_tokens] returns the number of rows of the user
    that had [is_revoked = false]; each of them, and no other row, is
    changed: it gets [is_revoked = True] and its [revoked_at] becomes one
    of the readings of the clock, all its other columns are kept; the
    rows of other users and the rows already revoked are exactly as
    before, with the flag and the [revoked_at] they had.  Afterwards no
    token string verifies as this user.  On the sample store, where Alice
    has three active and two revoked tokens, the result is 3. *)
Theorem revoke_all_user_tokens_spec (user_id : Z) (db : Session)
    (clock : nat -> datetime) :
  let count := fst (revoke_all_user_tokens user_id db clock) in
  let db' := snd (revoke_all_user_tokens user_id db clock) in
  count = List.length (Query.all (is_active_token_of user_id) (refresh_tokens db))
  /\ Forall2
       (fun r r' =>
          RefreshToken.id r' = RefreshToken.id r
          /\ RefreshToken.user_id r' = RefreshToken.user_id r
          /\ RefreshToken.token r' = RefreshToken.token r
          /\ RefreshToken.expires_at r' = RefreshToken.expires_at r
          /\ RefreshToken.created_at r' = RefreshToken.created_at r
          /\ RefreshToken.revoked_reason r' = RefreshToken.revoked_reason r
          /\ RefreshToken.user_agent r' = RefreshToken.user_agent r
          /\ RefreshToken.ip_address r' = RefreshToken.ip_address r
          /\ (RefreshToken.user_id r = user_id ->
              RefreshToken.is_revoked r = false ->
              RefreshToken.is_revoked r' = true
              /\ exists k, (k < count)%nat
                           /\ RefreshToken.revoked_at r' = Some (clock k))
          /\ (RefreshToken.user_id r <> user_id
              \/ RefreshToken.is_revoked r = true ->
              RefreshToken.is_revoked r' = RefreshToken.is_revoked r
              /\ RefreshToken.revoked_at r' = RefreshToken.revoked_at r
              /\ r' = r))
       (refresh_tokens db) (refresh_tokens db')
  /\ Forall2 (revoked_by_loop user_id clock 0 count)
             (refresh_tokens db) (refresh_tokens db')
  /\ users db' = users db
  /\ (forall token now, verify_refresh_token token db' now <> Some user_id)
  /\ (NoDup (map RefreshToken.token (refresh_tokens db)) ->
      forall r, In r (refresh_tokens db') ->
        RefreshToken.user_id r = user_id ->
        forall now, verify_refresh_token (RefreshToken.token r) db' now = None)
  /\ fst (revoke_all_user_tokens 1 Sample.db clock) = 3%nat.
Proof.
  cbv zeta.
  destruct (revoke_all_user_tokens_rows user_id db clock) as (HF & Hu & _).
  split; [|split; [|split; [exact HF|split; [exact Hu|split; [|split]]]]].
  - unfold revoke_all_user_tokens.
    pose proof (revoke_loop_spec user_id clock (refresh_tokens db) 0) as H.
    destruct (revoke_loop user_id clock (refresh_tokens db) 0) as [rows' n].
    simpl. tauto.
  - eapply Forall2_impl; [|exact HF].
    intros r r' HR. exact (revoked_by_loop_fields _ _ _ _ _ HR).
  - intros. apply revoke_all_user_tokens_not_valid.
  - intros Hnd r Hin Hr now. apply all_revoked_verify.
    now apply revoke_all_user_tokens_all_revoked.
  - reflexivity.
Qed.

(** The theorem at the sample store, for a call whose clock reads 60:
    the result is 3; Alice's token [t1], which was active, is stored
    revoked with [revoked_at = 60], and does not verify at time 70,
    before its expiry at 100; her token [t2], revoked at 5 before the
    call, is stored as it was. *)
Lemma revoke_all_user_tokens_spec_witness :
  let db' := snd (revoke_all_user_tokens 1 Sample.db (fun _ => 60)) in
  fst (revoke_all_user_tokens 1 Sample.db (fun _ => 60)) = 3%nat
  /\ verify_refresh_token "t1" db' 70 = None
  /\ (exists r1 r2 rest,
        refresh_tokens db' = r1 :: r2 :: rest
        /\ RefreshToken.token r1 = "t1"
        /\ RefreshToken.is_revoked r1 = true
        /\ RefreshToken.revoked_at r1 = Some 60
        /\ r2 = Sample.tok 2 1 "t2" 100 true
        /\ RefreshToken.revoked_at r2 = Some 5).
Proof.
  cbv zeta.
  destruct (revoke_all_user_tokens_spec 1 Sample.db (fun _ => 60))
    as (_ & Hrows & _ & _ & _ & Hdead & Hcount).
  split; [exact Hcount|]. split.
  - refine (Hdead _ (RefreshToken.revoke 60 (Sample.tok 1 1 "t1" 100 false)) _ _ 70).
    + repeat constructor; simpl; intuition discriminate.
    + simpl. auto.
    + reflexivity.
  - remember (refresh_tokens (snd (revoke_all_user_tokens 1 Sample.db (fun _ => 60))))
      as rows' eqn:Erows.
    clear Erows Hdead Hcount.
    unfold Sample.db in Hrows. simpl refresh_tokens in Hrows.
    inversion Hrows as [|a r1 l rows1 H1 Hrest]; subst.
    inversion Hrest as [|a r2 l rows2 H2 _]; subst.
    exists r1, r2, rows2. split; [reflexivity|].
    destruct H1 as (_ & _ & Ht1 & _ & _ & _ & _ & _ & Hact1 & _).
    destruct (Hact1 eq_refl eq_refl) as (Hrev1 & k & _ & Hat1).
    destruct H2 as (_ & _ & _ & _ & _ & _ & _ & _ & _ & Hkeep2).
    destruct (Hkeep2 (or_intror eq_refl)) as (_ & _ & ->).
    repeat split; auto.
Defined.

(** ** Properties of password verification and authentication *)

(** C4 (as amended). [verify_password] adds no error handling to
    [CryptContext.verify]: it returns a boolean exactly when the hash
    starts with a bcrypt identifier and the bcrypt handler returns that
    boolean; a hash that is not identified raises [UnknownHashError], and
    an exception of the handler is passed on. *)
Theorem verify_password_spec (E : Env.t) (plain_password hashed_password : string) :
  (forall b, verify_password E plain_password hashed_password = Ok b <->
     Passlib.bcrypt_identify hashed_password = true
     /\ Env.bcrypt_verify E plain_password hashed_password = Ok b)
  /\ (forall e, verify_password E plain_password hashed_password = Raise e <->
        (Passlib.bcrypt_identify hashed_password = false /\ e = UnknownHashError)
        \/ (Passlib.bcrypt_identify hashed_password = true
            /\ Env.bcrypt_verify E plain_password hashed_password = Raise e)).
Proof.
  unfold verify_password, Passlib.verify.
  destruct (Passlib.bcrypt_identify hashed_password); split; intros x; split.
  - auto.
  - tauto.
  - auto.
  - intros [[H _]|[_ H]]; [discriminate|exact H].
  - discriminate.
  - intros [H _]. discriminate.
  - intros [= <-]. auto.
  - intros [[_ ->]|[H _]]; [reflexivity|discriminate].
Qed.

(** C4, the claim as stated fails: whatever the bcrypt handler does,
    [verify_password] does not return a boolean for every pair of
    arguments; on the hash "not-a-hash" it raises. *)
Lemma verify_password_raises :
  ~ (exists E, forall plain hashed, exists b, verify_password E plain hashed = Ok b).
Proof.
  intros (E & H). destruct (H "secret" "not-a-hash") as (b & Hb).
  unfold verify_password, Passlib.verify in Hb. simpl in Hb. discriminate Hb.
Qed.

Lemma has_identifier_iff identifier u :
  has_identifier identifier u = true
  <-> User.username u = identifier \/ User.email u = identifier.
Proof.
  unfold has_identifier. rewrite orb_true_iff, !String.eqb_eq. tauto.
Qed.

(** ** The round trip of a password through bcrypt *)

Lemma substring_0_append (s t : string) (n : nat) :
  String.length s = n -> substring 0 n (s ++ t) = s.
Proof.
  revert n. induction s as [|a s IH]; intros n Hn; simpl in Hn; subst n.
  - destruct t; reflexivity.
  - simpl. f_equal. now apply IH.
Qed.

Lemma drop_append (s t : string) (n : nat) :
  String.length s = n -> Bcrypt.drop n (s ++ t) = t.
Proof.
  revert n. induction s as [|a s IH]; intros n Hn; simpl in Hn; subst n.
  - destruct t; reflexivity.
  - simpl. now apply IH.
Qed.

Lemma valid_salt_length salt :
  Bcrypt.valid_salt salt = true -> String.length salt = 22%nat.
Proof.
  unfold Bcrypt.valid_salt. intros H.
  apply andb_true_iff in H as [H _]. apply andb_true_iff in H as [H _].
  now apply Nat.eqb_eq.
Qed.

(** [from_string] reads back what [to_string] wrote. *)
Lemma from_string_to_string salt chk :
  Bcrypt.valid_salt salt = true -> Bcrypt.valid_checksum chk = true ->
  Bcrypt.from_string (Bcrypt.config salt ++ chk) = Some (salt, chk).
Proof.
  intros Hs Hc. pose proof (valid_salt_length salt Hs) as Hlen.
  assert (Hp : String.prefix "$2b$12$" (Bcrypt.config salt ++ chk) = true).
  { unfold Bcrypt.config. simpl. destruct (salt ++ chk)%string; reflexivity. }
  assert (Hd : Bcrypt.drop 7 (Bcrypt.config salt ++ chk) = (salt ++ chk)%string)
    by reflexivity.
  unfold Bcrypt.from_string. rewrite Hp. cbv zeta. rewrite Hd.
  rewrite (substring_0_append salt chk 22 Hlen).
  rewrite (drop_append salt chk 22 Hlen).
  now rewrite Hs, Hc.
Qed.

(** [get_password_hash] over the bcrypt handler. *)
Lemma get_password_hash_bcrypt base raw other salt P :
  get_password_hash (Bcrypt.env base raw other) salt P
  = match password_error P with
    | Some e => Raise e
    | None => Ok (Bcrypt.config salt ++ raw (Bcrypt.config salt) (bcrypt_key P))%string
    end.
Proof.
  unfold get_password_hash, Passlib.hash, password_error. simpl.
  unfold Bcrypt.hash, Bcrypt.calc_checksum, bcrypt_key.
  destruct (Bcrypt.MAX_PASSWORD_SIZE <? String.length P)%nat; [reflexivity|].
  cbv zeta. simpl orb.
  destruct (Bcrypt.MAX_PASSWORD_SIZE <? String.length (Bcrypt.encode_utf8 P))%nat;
    [reflexivity|].
  destruct (Bcrypt.contains Ascii.zero (Bcrypt.encode_utf8 P)); reflexivity.
Qed.

(** [verify_password] over the bcrypt handler, on a hash that the
    handler wrote. *)
Lemma verify_password_bcrypt base raw other salt chk P :
  Bcrypt.valid_salt salt = true -> Bcrypt.valid_checksum chk = true ->
  verify_password (Bcrypt.env base raw other) P (Bcrypt.config salt ++ chk)
  = match password_error P with
    | Some e => Raise e
    | None => Ok (raw (Bcrypt.config salt) (bcrypt_key P) =? chk)%string
    end.
Proof.
  intros Hs Hc. unfold verify_password, Passlib.verify.
  assert (Hid : Passlib.bcrypt_identify (Bcrypt.config salt ++ chk) = true)
    by reflexivity.
  rewrite Hid.
  change (Env.bcrypt_verify (Bcrypt.env base raw other))
    with (Bcrypt.verify raw other).
  unfold Bcrypt.verify, password_error.
  destruct (Bcrypt.MAX_PASSWORD_SIZE <? String.length P)%nat; [reflexivity|].
  rewrite (from_string_to_string salt chk Hs Hc).
  unfold Bcrypt.calc_checksum, bcrypt_key. cbv zeta. simpl orb.
  destruct (Bcrypt.MAX_PASSWORD_SIZE <? String.length (Bcrypt.encode_utf8 P))%nat;
    [reflexivity|].
  destruct (Bcrypt.contains Ascii.zero (Bcrypt.encode_utf8 P)); reflexivity.
Qed.

Lemma sample_raw_valid config key :
  Bcrypt.valid_checksum (Sample.raw config key) = true.
Proof.
  unfold Sample.raw. destruct key as [|a key]; [reflexivity|].
  destruct (Bcrypt.contains a Bcrypt.HASH64_CHARS) eqn:Ha; [|reflexivity].
  unfold Bcrypt.valid_checksum. simpl String.length. simpl Nat.eqb.
  simpl Bcrypt.ends_in.
  simpl Bcrypt.all_in. unfold Bcrypt.HASH64_CHARS in Ha. simpl in Ha.
  rewrite Ha. reflexivity.
Qed.

(** C6, the claim as stated fails: whatever digest bcrypt computes, a
    password that differs from [P] only after its first 72 bytes
    verifies against the hash of [P]. *)
Lemma verify_password_reads_72_bytes :
  ~ (exists (base : Env.t) (raw : string -> string -> string)
            (other : string -> string -> result bool) (salt : string),
       (forall config key, Bcrypt.valid_checksum (raw config key) = true)
       /\ Bcrypt.valid_salt salt = true
       /\ forall P P' h,
            get_password_hash (Bcrypt.env base raw other) salt P = Ok h ->
            verify_password (Bcrypt.env base raw other) P h = Ok true
            /\ (P' <> P ->
                verify_password (Bcrypt.env base raw other) P' h = Ok false)).
Proof.
  intros (base & raw & other & salt & Hraw & Hsalt & H).
  pose (P := "aaaaaaaaaaaaaaaaaaaaaaaaaaaaaaaaaaaaaaaaaaaaaaaaaaaaaaaaaaaaaaaaaaaaaaaax").
  pose (P' := "aaaaaaaaaaaaaaaaaaaaaaaaaaaaaaaaaaaaaaaaaaaaaaaaaaaaaaaaaaaaaaaaaaaaaaaay").
  assert (Hh : get_password_hash (Bcrypt.env base raw other) salt P
               = Ok (Bcrypt.config salt
                     ++ raw (Bcrypt.config salt) (bcrypt_key P))%string).
  { rewrite get_password_hash_bcrypt. reflexivity. }
  destruct (H P P' _ Hh) as [_ Hne].
  assert (Hdiff : P' <> P) by (unfold P, P'; intros Heq; discriminate Heq).
  specialize (Hne Hdiff).
  rewrite (verify_password_bcrypt base raw other salt _ P' Hsalt (Hraw _ _)) in Hne.
  assert (Hk : bcrypt_key P' = bcrypt_key P) by (vm_compute; reflexivity).
  assert (He : password_error P' = None) by (vm_compute; reflexivity).
  rewrite He, Hk, String.eqb_refl in Hne. discriminate Hne.
Qed.

(** C6 (as amended). Over passlib's bcrypt handler, whatever digest
    bcrypt computes: [get_password_hash] raises for a password that
    passlib refuses (more than 4096 bytes, or a NUL); for any other
    password [P] it returns the identifier, cost and salt followed by the
    digest of the first 72 bytes of [P], and [verify_password] against
    this hash returns [True] for [P], returns [True] or [False] for
    another accepted password according to whether bcrypt computes the
    same digest from its first 72 bytes, hence [True] whenever these
    bytes are those of [P], and raises for a refused password. *)
Theorem password_hash_round_trip (base : Env.t) (raw : string -> string -> string)
    (other : string -> string -> result bool) (salt P : string)
    (Hraw : forall config key, Bcrypt.valid_checksum (raw config key) = true)
    (Hsalt : Bcrypt.valid_salt salt = true) :
  let E := Bcrypt.env base raw other in
  (forall e, password_error P = Some e -> get_password_hash E salt P = Raise e)
  /\ (password_error P = None ->
      exists h,
        get_password_hash E salt P = Ok h
        /\ h = (Bcrypt.config salt ++ raw (Bcrypt.config salt) (bcrypt_key P))%string
        /\ verify_password E P h = Ok true
        /\ (forall P', password_error P' = None ->
              verify_password E P' h
              = Ok (raw (Bcrypt.config salt) (bcrypt_key P')
                    =? raw (Bcrypt.config salt) (bcrypt_key P))%string)
        /\ (forall P', password_error P' = None ->
              bcrypt_key P' = bcrypt_key P ->
              verify_password E P' h = Ok true)
        /\ (forall P' e, password_error P' = Some e ->
              verify_password E P' h = Raise e)).
Proof.
  cbv zeta. split.
  - intros e He. now rewrite get_password_hash_bcrypt, He.
  - intros Hacc. eexists. split; [|split; [reflexivity|]].
    + now rewrite get_password_hash_bcrypt, Hacc.
    + assert (Hv : forall P',
                verify_password (Bcrypt.env base raw other) P'
                  (Bcrypt.config salt ++ raw (Bcrypt.config salt) (bcrypt_key P))
                = match password_error P' with
                  | Some e => Raise e
                  | None => Ok (raw (Bcrypt.config salt) (bcrypt_key P')
                                =? raw (Bcrypt.config salt) (bcrypt_key P))%string
                  end).
      { intros P'. apply verify_password_bcrypt; auto. }
      split; [|split; [|split]].
      * now rewrite Hv, Hacc, String.eqb_refl.
      * intros P' H'. now rewrite Hv, H'.
      * intros P' H' Hk. now rewrite Hv, H', Hk, String.eqb_refl.
      * intros P' e H'. now rewrite Hv, H'.
Qed.

(** The theorem at a sample digest: the hash of "pw-alice" verifies for
    "pw-alice" and for a password with the same first 72 bytes, not for
    "wrong"; a password with a NUL is refused. *)
Lemma password_hash_round_trip_witness :
  let long := "aaaaaaaaaaaaaaaaaaaaaaaaaaaaaaaaaaaaaaaaaaaaaaaaaaaaaaaaaaaaaaaaaaaaaaaa" in
  exists h,
    get_password_hash Sample.bcrypt_env Sample.bcrypt_salt "pw-alice" = Ok h
    /\ verify_password Sample.bcrypt_env "pw-alice" h = Ok true
    /\ verify_password Sample.bcrypt_env "wrong" h = Ok false
    /\ get_password_hash Sample.bcrypt_env Sample.bcrypt_salt
         "aaaaaaaaaaaaaaaaaaaaaaaaaaaaaaaaaaaaaaaaaaaaaaaaaaaaaaaaaaaaaaaaaaaaaaaax"
       = Ok (Bcrypt.config Sample.bcrypt_salt
             ++ Sample.raw (Bcrypt.config Sample.bcrypt_salt) long)%string
    /\ verify_password Sample.bcrypt_env
         "aaaaaaaaaaaaaaaaaaaaaaaaaaaaaaaaaaaaaaaaaaaaaaaaaaaaaaaaaaaaaaaaaaaaaaaay"
         (Bcrypt.config Sample.bcrypt_salt
          ++ Sample.raw (Bcrypt.config Sample.bcrypt_salt) long)
       = Ok true
    /\ get_password_hash Sample.bcrypt_env Sample.bcrypt_salt
         (String Ascii.zero "pw")
       = Raise (LibraryError "NullPasswordError").
Proof.
  cbv zeta. unfold Sample.bcrypt_env.
  destruct (proj2 (password_hash_round_trip Sample.env Sample.raw Sample.other
                     Sample.bcrypt_salt "pw-alice" sample_raw_valid eq_refl)
              eq_refl) as (h & Hh & Heq & Hsame & Hother & _ & _).
  destruct (proj2 (password_hash_round_trip Sample.env Sample.raw Sample.other
                     Sample.bcrypt_salt "aaaaaaaaaaaaaaaaaaaaaaaaaaaaaaaaaaaaaaaaaaaaaaaaaaaaaaaaaaaaaaaaaaaaaaaax" sample_raw_valid eq_refl)
              eq_refl) as (h2 & Hh2 & Heq2 & _ & _ & Hkey & _).
  exists h. split; [exact Hh|]. split; [exact Hsame|]. split; [|split; [|split]].
  - rewrite (Hother "wrong" eq_refl). reflexivity.
  - rewrite Hh2, Heq2. reflexivity.
  - rewrite Heq2 in Hkey. apply (Hkey "aaaaaaaaaaaaaaaaaaaaaaaaaaaaaaaaaaaaaaaaaaaaaaaaaaaaaaaaaaaaaaaaaaaaaaaay"); reflexivity.
  - apply (proj1 (password_hash_round_trip Sample.env Sample.raw Sample.other
                    Sample.bcrypt_salt (String Ascii.zero "pw")
                    sample_raw_valid eq_refl)).
    reflexivity.
Defined.

(** C7, the claim as stated fails: whatever the libraries do,
    [authenticate_user] has a third outcome besides [None] and a user.
    For a user whose stored hash is not a bcrypt hash it raises the
    exception of [verify_password]. *)
Lemma authenticate_user_raises :
  ~ (exists E, forall username password db,
       authenticate_user E username password db = Ok None
       \/ exists u, authenticate_user E username password db = Ok (Some u)).
Proof.
  intros (E & H).
  destruct (H "xavier" "pw"
              (mkSession
                 [User.mk 1 "x@example.com" "xavier" "not-a-hash" true false 0 None]
                 [] 2 1)) as [Hnone|(u & Hsome)].
  - unfold authenticate_user, verify_password, Passlib.verify in Hnone.
    simpl in Hnone. discriminate Hnone.
  - unfold authenticate_user, verify_password, Passlib.verify in Hsome.
    simpl in Hsome. discriminate Hsome.
Qed.

(** C7 (as amended). [authenticate_user] returns [None] exactly when no
    user has the identifier as username or email, or when
    [verify_password] returns [False] for the stored hash of the first
    user that has; it returns that user exactly when [verify_password]
    returns [True]; and it raises an exception exactly when
    [verify_password] raises it for that user.  [is_active] plays no
    part: the inactive user of the sample store is returned. *)
Theorem authenticate_user_spec (E : Env.t) (username password : string)
    (db : Session) :
  (authenticate_user E username password db = Ok None <->
     (forall u, In u (users db) ->
        User.username u <> username /\ User.email u <> username)
     \/ (exists u, Query.first (has_identifier username) (users db) = Some u
                   /\ verify_password E password (User.hashed_password u) = Ok false))
  /\ (forall u, authenticate_user E username password db = Ok (Some u) <->
        Query.first (has_identifier username) (users db) = Some u
        /\ verify_password E password (User.hashed_password u) = Ok true)
  /\ (forall e, authenticate_user E username password db = Raise e <->
        exists u, Query.first (has_identifier username) (users db) = Some u
                  /\ verify_password E password (User.hashed_password u) = Raise e)
  /\ (forall u, authenticate_user E username password db = Ok (Some u) ->
        In u (users db)
        /\ (User.username u = username \/ User.email u = username))
  /\ (User.is_active Sample.bob = false
      /\ authenticate_user Sample.env "bob" "pw-bob" Sample.db = Ok (Some Sample.bob)).
Proof.
  assert (Hcases :
    (Query.first (has_identifier username) (users db) = None
     /\ authenticate_user E username password db = Ok None)
    \/ (exists user b,
          Query.first (has_identifier username) (users db) = Some user
          /\ verify_password E password (User.hashed_password user) = Ok b
          /\ authenticate_user E username password db
             = Ok (if b then Some user else None))
    \/ (exists user e,
          Query.first (has_identifier username) (users db) = Some user
          /\ verify_password E password (User.hashed_password user) = Raise e
          /\ authenticate_user E username password db = Raise e)).
  { unfold authenticate_user.
    destruct (Query.first _ _) as [user|]; [|auto].
    destruct (verify_password E password (User.hashed_password user))
      as [[|]|e] eqn:V;
      simpl; right;
      [left; exists user, true|left; exists user, false|right; exists user, e];
      auto. }
  split; [|split; [|split; [|split]]].
  - destruct Hcases as [[F ->]|[(user & b & F & V & ->)|(user & e & F & V & ->)]].
    + split; [intros _; left|reflexivity]. intros u Hin.
      pose proof (find_none _ _ F u Hin) as Hn.
      unfold has_identifier in Hn. apply orb_false_iff in Hn as [H1 H2].
      apply String.eqb_neq in H1, H2. auto.
    + pose proof (find_some _ _ F) as [Hin Hid]. apply has_identifier_iff in Hid.
      split.
      * destruct b; [discriminate|]. intros _. right. eauto.
      * intros [H|(u & Fu & Vu)].
        -- destruct (H user Hin). tauto.
        -- rewrite F in Fu. injection Fu as <-. rewrite V in Vu.
           injection Vu as ->. reflexivity.
    + pose proof (find_some _ _ F) as [Hin Hid]. apply has_identifier_iff in Hid.
      split; [discriminate|]. intros [H|(u & Fu & Vu)].
      * destruct (H user Hin). tauto.
      * rewrite F in Fu. injection Fu as <-. congruence.
  - intros u.
    destruct Hcases as [[F ->]|[(user & b & F & V & ->)|(user & e & F & V & ->)]].
    + split; [discriminate|]. intros [Fu _]. congruence.
    + split.
      * destruct b; [|discriminate]. intros [= <-]. auto.
      * intros [Fu Vu]. rewrite F in Fu. injection Fu as <-.
        rewrite V in Vu. injection Vu as ->. reflexivity.
    + split; [discriminate|]. intros [Fu Vu]. rewrite F in Fu.
      injection Fu as <-. congruence.
  - intros e0.
    destruct Hcases as [[F ->]|[(user & b & F & V & ->)|(user & e & F & V & ->)]].
    + split; [discriminate|]. intros (u & Fu & _). congruence.
    + split; [destruct b; discriminate|]. intros (u & Fu & Vu).
      rewrite F in Fu. injection Fu as <-. congruence.
    + split.
      * intros [= <-]. eauto.
      * intros (u & Fu & Vu). rewrite F in Fu. injection Fu as <-. congruence.
  - intros u.
    destruct Hcases as [[F ->]|[(user & b & F & V & ->)|(user & e & F & V & ->)]];
      try discriminate.
    destruct b; [|discriminate]. intros [= <-].
    pose proof (find_some _ _ F) as [Hin Hid]. apply has_identifier_iff in Hid. auto.
  - split; reflexivity.
Qed.

(** ** Properties of the access-token dependencies *)

Lemma get_current_active_user_Ok E token db now u :
  get_current_active_user E token db now = Ok u <->
  get_current_user E token db now = Ok u /\ User.is_active u = true.
Proof.
  unfold get_current_active_user.
  destruct (get_current_user E token db now) as [u'|e]; simpl.
  - destruct (User.is_active u') eqn:A; simpl; split.
    + intros [= <-]. auto.
    + intros [[= <-] _]. reflexivity.
    + discriminate.
    + intros [[= <-] H]. congruence.
  - split; [discriminate|]. intros [? _]. discriminate.
Qed.

Lemma get_current_active_user_inactive E token db now u :
  get_current_user E token db now = Ok u ->
  User.is_active u = false ->
  get_current_active_user E token db now = Raise (HTTPException 400 "Inactive user").
Proof.
  unfold get_current_active_user. intros -> A. simpl. rewrite A. reflexivity.
Qed.

(** Every endpoint behind [get_current_active_user] answers a caller whose
    account is inactive with the exception of that dependency. *)
Lemma protected_endpoints_inactive E token db now clock salt password_data u :
  get_current_user E token db now = Ok u ->
  User.is_active u = false ->
  let e := Raise (HTTPException 400 "Inactive user") in
  logout_all E token db now clock = (e, db)
  /\ get_current_user_info E token db now = (e, db)
  /\ change_password E password_data token db salt now clock = (e, db)
  /\ delete_account E token db now clock = (e, db).
Proof.
  intros Hu A. cbv zeta.
  unfold logout_all, get_current_user_info, change_password, delete_account.
  rewrite (get_current_active_user_inactive E token db now u Hu A). auto.
Qed.

(** The login endpoints answer an authenticated but inactive account with
    403. *)
Lemma login_inactive E username password db now u login_data request urandom :
  authenticate_user E username password db = Ok (Some u) ->
  User.is_active u = false ->
  schemas.login_username login_data = username ->
  schemas.login_password login_data = password ->
  let e := Raise (HTTPException 403 "Account is inactive. Please contact support.") in
  login_oauth2 E username password db now = (e, db)
  /\ login_json E login_data request db urandom now = (e, db).
Proof.
  intros Hu A <- <-. cbv zeta. unfold login_oauth2, login_json.
  rewrite Hu, A. auto.
Qed.

(** C5, at the failing input.  Bob's account in the sample store is
    inactive.  The two login endpoints and the refresh endpoint answer him
    with 403, but [get_current_active_user], and with it each of the four
    endpoints that depend on it, answers his valid access token with 400. *)
Theorem inactive_account_status_codes :
  let pw := schemas.mkPasswordChangeRequest "pw-bob" "new-password" in
  let clock := fun _ : nat => 10 in
  User.is_active Sample.bob = false
  /\ get_current_user Sample.env "k.bob" Sample.db 10 = Ok Sample.bob
  /\ fst (login_oauth2 Sample.env "bob" "pw-bob" Sample.db 10)
     = Raise (HTTPException 403 "Account is inactive. Please contact support.")
  /\ fst (login_json Sample.env (schemas.mkLoginRequest "bob" "pw-bob" true)
                     (mkRequest None None) Sample.db "fresh" 10)
     = Raise (HTTPException 403 "Account is inactive. Please contact support.")
  /\ fst (refresh_access_token Sample.env "t3" Sample.db 10)
     = Raise (HTTPException 403 "Account is inactive")
  /\ get_current_active_user Sample.env "k.bob" Sample.db 10
     = Raise (HTTPException 400 "Inactive user")
  /\ fst (get_current_user_info Sample.env "k.bob" Sample.db 10)
     = Raise (HTTPException 400 "Inactive user")
  /\ fst (logout_all Sample.env "k.bob" Sample.db 10 clock)
     = Raise (HTTPException 400 "Inactive user")
  /\ fst (change_password Sample.env pw "k.bob" Sample.db "s" 10 clock)
     = Raise (HTTPException 400 "Inactive user")
  /\ fst (delete_account Sample.env "k.bob" Sample.db 10 clock)
     = Raise (HTTPException 400 "Inactive user").
Proof.
  cbv zeta.
  assert (Hu : get_current_user Sample.env "k.bob" Sample.db 10 = Ok Sample.bob)
    by reflexivity.
  assert (A : User.is_active Sample.bob = false) by reflexivity.
  destruct (protected_endpoints_inactive Sample.env "k.bob" Sample.db 10
              (fun _ => 10) "s"
              (schemas.mkPasswordChangeRequest "pw-bob" "new-password")
              Sample.bob Hu A) as (H1 & H2 & H3 & H4).
  destruct (login_inactive Sample.env "bob" "pw-bob" Sample.db 10 Sample.bob
              (schemas.mkLoginRequest "bob" "pw-bob" true) (mkRequest None None)
              "fresh" eq_refl A eq_refl eq_refl) as (L1 & L2).
  rewrite H1, H2, H3, H4, L1, L2.
  rewrite (get_current_active_user_inactive _ _ _ _ _ Hu A).
  repeat split; reflexivity.
Qed.

Lemma get_current_user_Ok E token db now u :
  get_current_user E token db now = Ok u ->
  exists payload v,
    decode_access_token E token now = Some payload
    /\ dict_get "sub" payload = Some v
    /\ Query.first (fun u => value_eqb_string v (User.username u)) (users db) = Some u.
Proof.
  unfold get_current_user, decode_access_token.
  destruct (Env.jwt_decode _ _ _ _ _) as [payload|]; [|discriminate].
  destruct (dict_get "sub" payload) as [v|] eqn:D; [|discriminate].
  destruct (Query.first _ _) as [u'|] eqn:F; [|discriminate].
  intros [= <-]. exists payload, v. auto.
Qed.

Lemma get_current_user_In E token db now u :
  get_current_user E token db now = Ok u -> In u (users db).
Proof.
  intros H. apply get_current_user_Ok in H as (payload & v & _ & _ & F).
  now apply find_some in F.
Qed.

(** With unique usernames, deleting a user leaves no row with that
    username. *)
Lemma delete_user_username db u u' :
  NoDup (map User.username (users db)) ->
  In u (users db) ->
  In u' (users (delete_user (User.id u) db)) ->
  User.username u' <> User.username u.
Proof.
  unfold delete_user. simpl. intros Hnd Hin Hin' Heq.
  apply filter_In in Hin' as [Hin' Hid].
  assert (u' = u) by (eapply NoDup_map_inj; eauto).
  subst. rewrite Z.eqb_refl in Hid. discriminate.
Qed.

Lemma delete_account_Ok E token db now clock resp db' :
  delete_account E token db now clock = (Ok resp, db') ->
  exists u, get_current_user E token db now = Ok u
            /\ User.is_active u = true
            /\ db' = delete_user (User.id u)
                       (snd (revoke_all_user_tokens (User.id u) db clock)).
Proof.
  unfold delete_account.
  destruct (get_current_active_user E token db now) as [u|e] eqn:G; [|discriminate].
  apply get_current_active_user_Ok in G as [G A].
  destruct (revoke_all_user_tokens (User.id u) db clock) as [n db1] eqn:R.
  intros [= _ <-]. exists u. rewrite R. auto.
Qed.

(** The sample store satisfies the constraints of its tables. *)
Lemma sample_db_well_formed : well_formed Sample.db.
Proof.
  constructor; simpl.
  - repeat constructor; simpl; intuition discriminate.
  - intros u [<-|[<-|[]]]; simpl; lia.
  - repeat constructor; simpl; intuition discriminate.
  - repeat constructor; simpl; intuition discriminate.
  - repeat constructor; simpl; intuition discriminate.
  - intros r H. repeat (destruct H as [<-|H]; [simpl; lia|]). destruct H.
  - repeat constructor; simpl; intuition discriminate.
  - intros r H.
    repeat (destruct H as [<-|H];
            [first [exists Sample.alice; simpl; split; [tauto|reflexivity]
                   |exists Sample.bob; simpl; split; [tauto|reflexivity]]|]).
    destruct H.
Defined.

(** ** The store along a sequence of calls *)

Lemma Forall2_refl {A} (R : A -> A -> Prop) (l : list A) :
  (forall x, R x x) -> Forall2 R l l.
Proof. intros H. induction l; constructor; auto. Qed.

Lemma same_keys_refl r : same_keys r r.
Proof. unfold same_keys. tauto. Qed.

Lemma same_keys_trans r1 r2 r3 :
  same_keys r1 r2 -> same_keys r2 r3 -> same_keys r1 r3.
Proof. unfold same_keys. intuition congruence. Qed.

Lemma same_identity_refl u : same_identity u u.
Proof. unfold same_identity. tauto. Qed.

Lemma transition_refl P U db : transition P U db db.
Proof.
  apply t_update; auto using Forall2_refl, same_keys_refl, same_identity_refl.
Qed.

Lemma transition_mono (P P' U U' : string -> Prop) db db' :
  (forall t, P t -> P' t) -> (forall n, U n -> U' n) ->
  transition P U db db' -> transition P' U' db db'.
Proof.
  intros HP HU. induction 1.
  - now apply t_update.
  - apply t_insert_user; auto.
  - apply t_insert_token; auto.
  - apply t_delete_user.
  - apply t_update_hash.
  - apply t_refused_insert.
  - eapply t_trans; eauto.
Qed.

Lemma revoke_first_same_keys token now rows :
  Forall2 same_keys rows (revoke_first token now rows).
Proof.
  induction rows as [|r rows IH]; simpl; [constructor|].
  destruct (RefreshToken.token r =? token)%string.
  - constructor; [|apply Forall2_refl, same_keys_refl].
    unfold same_keys. simpl. tauto.
  - constructor; [apply same_keys_refl|exact IH].
Qed.

Lemma update_hashed_password_In pk h now rows u' :
  In u' (update_hashed_password pk h now rows) <->
  (In u' rows /\ User.id u' <> pk)
  \/ (exists u, In u rows /\ User.id u = pk
                /\ u' = User.set_hashed_password h now u).
Proof.
  unfold update_hashed_password. rewrite in_app_iff, filter_In, in_map_iff.
  rewrite negb_true_iff, Z.eqb_neq. split.
  - intros [H|(u & <- & Hu)]; [left; exact H|right].
    apply filter_In in Hu as [Hu Hid]. apply Z.eqb_eq in Hid. eauto.
  - intros [H|(u & Hu & Hid & ->)]; [left; exact H|right].
    exists u. split; [reflexivity|]. apply filter_In. split; [exact Hu|].
    now apply Z.eqb_eq.
Qed.

Lemma update_hashed_password_same_identity pk h now rows u' :
  In u' (update_hashed_password pk h now rows) ->
  exists u, In u rows /\ same_identity u u'.
Proof.
  intros H. apply update_hashed_password_In in H as [[H _]|(u & Hu & _ & ->)].
  - exists u'. split; [exact H|]. unfold same_identity. tauto.
  - exists u. split; [exact Hu|]. unfold same_identity. simpl. tauto.
Qed.

Lemma update_hashed_password_kept pk h now rows u :
  In u rows ->
  exists u', In u' (update_hashed_password pk h now rows) /\ same_identity u u'.
Proof.
  intros H. destruct (Z.eq_dec (User.id u) pk) as [Hid|Hid].
  - exists (User.set_hashed_password h now u). split.
    + apply update_hashed_password_In. right. eauto.
    + unfold same_identity. simpl. tauto.
  - exists u. split.
    + apply update_hashed_password_In. left. auto.
    + unfold same_identity. tauto.
Qed.

(** The update keeps every column that it does not set, up to the order
    of the rows. *)
Lemma update_hashed_password_column {B} (column : User.t -> B) pk h now rows :
  (forall u, column (User.set_hashed_password h now u) = column u) ->
  Permutation (map column (update_hashed_password pk h now rows)) (map column rows).
Proof.
  intros Hc. unfold update_hashed_password.
  induction rows as [|a rows IH]; simpl; [constructor|].
  destruct (User.id a =? pk); simpl.
  - rewrite map_app in *. simpl. rewrite Hc.
    apply Permutation_sym, Permutation_cons_app, Permutation_sym. exact IH.
  - constructor. exact IH.
Qed.

Lemma revoke_all_user_tokens_transition P U user_id db clock :
  transition P U db (snd (revoke_all_user_tokens user_id db clock)).
Proof.
  destruct (revoke_all_user_tokens_rows user_id db clock) as (_ & Hu & Hs1 & Hs2).
  apply t_update; auto.
  - rewrite Hu. apply Forall2_refl, same_identity_refl.
  - apply revoke_all_user_tokens_same_keys.
Qed.

Lemma revoke_refresh_token_transition P U token db now :
  transition P U db (snd (revoke_refresh_token token db now)).
Proof.
  unfold revoke_refresh_token. destruct (Query.first _ _); simpl.
  - apply t_update; simpl; auto.
    + apply Forall2_refl, same_identity_refl.
    + apply revoke_first_same_keys.
  - apply transition_refl.
Qed.

(** What a successful [create_refresh_token] checked and did. *)
Lemma create_refresh_token_inv settings user_id db ua ip token now t db' :
  create_refresh_token settings user_id db ua ip token now = Ok (t, db') ->
  t = token
  /\ existsb (fun r => (RefreshToken.token r =? token)%string) (refresh_tokens db)
     = false
  /\ existsb (fun u => User.id u =? user_id) (users db) = true
  /\ db' = mkSession (users db)
             (refresh_tokens db
              ++ [RefreshToken.mk (refresh_tokens_id_seq db) user_id token
                    (now + timedelta_days (Settings.REFRESH_TOKEN_EXPIRE_DAYS settings))
                    now false None None ua ip])
             (users_id_seq db) (refresh_tokens_id_seq db + 1).
Proof.
  unfold create_refresh_token.
  destruct (negb (fits 255 (Some token))); [discriminate|].
  destruct (negb (fits 512 ua)); [discriminate|].
  destruct (negb (fits 45 ip)); [discriminate|].
  destruct (existsb _ (refresh_tokens db)) eqn:X; [discriminate|].
  destruct (existsb _ (users db)) eqn:X'; simpl; [|discriminate].
  intros [= <- <-]. auto.
Qed.

Lemma create_refresh_token_transition U settings user_id db ua ip token now t db' :
  create_refresh_token settings user_id db ua ip token now = Ok (t, db') ->
  transition (eq token) U db db'.
Proof.
  intros H. apply create_refresh_token_inv in H as (_ & X & X' & ->).
  apply (t_insert_token (eq token) U db
           (RefreshToken.mk (refresh_tokens_id_seq db) user_id token
              (now + timedelta_days (Settings.REFRESH_TOKEN_EXPIRE_DAYS settings))
              now false None None ua ip)); simpl; auto.
  - intros r' Hin. apply String.eqb_neq.
    destruct (RefreshToken.token r' =? token)%string eqn:T; [|reflexivity].
    rewrite <- X. symmetry. apply existsb_exists. eauto.
  - apply existsb_exists in X' as (u & Hin & Hu). apply Z.eqb_eq in Hu. eauto.
Qed.

Lemma register_transition E user db salt now :
  transition (fun _ => False) (eq (schemas.username user))
             db (snd (register E user db salt now)).
Proof.
  unfold register.
  destruct (Query.first _ _) as [existing|] eqn:F.
  - destruct (User.email existing =? schemas.email user)%string;
      apply transition_refl.
  - destruct (get_password_hash E salt (schemas.password user)) as [h|e];
      [|apply transition_refl].
    simpl.
    apply (t_insert_user (fun _ => False) (eq (schemas.username user)) db
             (User.mk (users_id_seq db) (schemas.email user)
                      (schemas.username user) h true false now None));
      [reflexivity|reflexivity|].
    intros u' Hin. pose proof (find_none _ _ F u' Hin) as Hn. simpl in *.
    apply orb_false_iff in Hn as [H1 H2].
    apply String.eqb_neq in H1, H2. auto.
Qed.

Lemma login_oauth2_unchanged E username password db now :
  snd (login_oauth2 E username password db now) = db.
Proof.
  unfold login_oauth2.
  destruct (authenticate_user E username password db) as [[u|]|e]; auto.
  destruct (User.is_active u); auto.
Qed.

Lemma login_json_transition U E login_data request db urandom now :
  transition (fun t => schemas.remember_me login_data = true /\ urandom = t) U
             db (snd (login_json E login_data request db urandom now)).
Proof.
  unfold login_json.
  destruct (authenticate_user E _ _ db) as [[u|]|e]; try apply transition_refl.
  destruct (User.is_active u); simpl; [|apply transition_refl].
  destruct (schemas.remember_me login_data); [|apply transition_refl].
  destruct (create_refresh_token _ _ _ _ _ _ _) as [[t db']|e] eqn:C;
    [|apply t_refused_insert].
  simpl. eapply transition_mono; [| |eapply create_refresh_token_transition; eauto].
  - intros t0 <-. auto.
  - intros n Hn. exact Hn.
Qed.

Lemma refresh_access_token_unchanged E refresh_token db now :
  snd (refresh_access_token E refresh_token db now) = db.
Proof.
  unfold refresh_access_token.
  destruct (verify_refresh_token refresh_token db now) as [uid|]; auto.
  destruct (uid =? 0); auto.
  destruct (Query.first _ _) as [u|]; auto.
  destruct (User.is_active u); auto.
Qed.

Lemma logout_transition P U refresh_token db now :
  transition P U db (snd (logout refresh_token db now)).
Proof.
  unfold logout.
  pose proof (revoke_refresh_token_transition P U refresh_token db now) as H.
  destruct (revoke_refresh_token refresh_token db now) as [[|] db']; exact H.
Qed.

Lemma logout_all_transition P U E token db now clock :
  transition P U db (snd (logout_all E token db now clock)).
Proof.
  unfold logout_all.
  destruct (get_current_active_user E token db now) as [u|e];
    [|apply transition_refl].
  pose proof (revoke_all_user_tokens_transition P U (User.id u) db clock) as H.
  destruct (revoke_all_user_tokens (User.id u) db clock) as [n db']. exact H.
Qed.

Lemma get_current_user_info_unchanged E token db now :
  snd (get_current_user_info E token db now) = db.
Proof.
  unfold get_current_user_info.
  destruct (get_current_active_user E token db now); auto.
Qed.

(** What a successful [change_password] did. *)
Lemma change_password_Ok E pw token db salt now clock resp db' :
  change_password E pw token db salt now clock = (Ok resp, db') ->
  exists u h,
    get_current_user E token db now = Ok u
    /\ User.is_active u = true
    /\ verify_password E (schemas.current_password pw) (User.hashed_password u)
       = Ok true
    /\ get_password_hash E salt (schemas.new_password pw) = Ok h
    /\ db' = snd (revoke_all_user_tokens (User.id u)
                    (set_users (update_hashed_password (User.id u) h now (users db)) db)
                    clock).
Proof.
  unfold change_password.
  destruct (get_current_active_user E token db now) as [u|e] eqn:G; [|discriminate].
  apply get_current_active_user_Ok in G as [G A].
  destruct (verify_password E _ _) as [[|]|e] eqn:V; try discriminate.
  destruct (get_password_hash E salt _) as [h|e] eqn:H; [|discriminate].
  destruct (revoke_all_user_tokens _ _ clock) as [n db2] eqn:R.
  intros [= _ <-]. exists u, h. rewrite R. auto.
Qed.

Lemma change_password_transition P U E pw token db salt now clock :
  transition P U db (snd (change_password E pw token db salt now clock)).
Proof.
  destruct (change_password E pw token db salt now clock) as [[resp|e] db'] eqn:C.
  - apply change_password_Ok in C as (u & h & _ & _ & _ & _ & ->). simpl.
    eapply t_trans; [|apply revoke_all_user_tokens_transition].
    apply t_update_hash.
  - simpl. revert C. unfold change_password.
    destruct (get_current_active_user E token db now) as [u|e'];
      [|intros [= _ <-]; apply transition_refl].
    destruct (verify_password E _ _) as [[|]|e'];
      try (intros [= _ <-]; apply transition_refl).
    destruct (get_password_hash E salt _) as [h|e'];
      [|intros [= _ <-]; apply transition_refl].
    destruct (revoke_all_user_tokens _ _ clock). discriminate.
Qed.

Lemma delete_account_transition P U E token db now clock :
  transition P U db (snd (delete_account E token db now clock)).
Proof.
  unfold delete_account.
  destruct (get_current_active_user E token db now) as [u|e];
    [|apply transition_refl].
  pose proof (revoke_all_user_tokens_transition P U (User.id u) db clock) as H.
  destruct (revoke_all_user_tokens (User.id u) db clock) as [n db1]. simpl in *.
  eapply t_trans; [exact H|apply t_delete_user].
Qed.

(** Every call is one of the transitions, and the only token string it
    can insert is the one it drew. *)
Lemma handle_transition E c i db :
  transition (draws c i) (registers c) db (snd (handle E c i db)).
Proof.
  destruct c; simpl.
  - eapply transition_mono; [| |apply register_transition]; simpl; tauto.
  - rewrite login_oauth2_unchanged. apply transition_refl.
  - apply login_json_transition.
  - rewrite refresh_access_token_unchanged. apply transition_refl.
  - apply logout_transition.
  - apply logout_all_transition.
  - rewrite get_current_user_info_unchanged. apply transition_refl.
  - apply change_password_transition.
  - apply delete_account_transition.
Qed.

Lemma run_transition E calls db :
  transition (drawn calls) (registered calls) db (run E calls db).
Proof.
  revert db. induction calls as [|[c i] calls IH]; intros db; simpl.
  - apply transition_refl.
  - eapply t_trans.
    + eapply transition_mono; [| |apply handle_transition];
        intros t Ht; apply Exists_cons_hd; exact Ht.
    + eapply transition_mono; [| |apply IH];
        intros t Ht; apply Exists_cons_tl; exact Ht.
Qed.

Lemma NoDup_snoc {A} (l : list A) (x : A) :
  NoDup l -> ~ In x l -> NoDup (l ++ [x]).
Proof.
  intros Hnd Hx. induction Hnd as [|a l Ha Hnd IH]; simpl.
  - constructor; [tauto|constructor].
  - constructor.
    + rewrite in_app_iff. simpl. intros [H|[H|[]]]; [tauto|].
      apply Hx. left. congruence.
    + apply IH. intros H. apply Hx. now right.
Qed.

(** Deleting rows keeps a column unique. *)
Lemma NoDup_map_filter {Row Key} (column : Row -> Key) (keep : Row -> bool) rows :
  NoDup (map column rows) -> NoDup (map column (filter keep rows)).
Proof.
  induction rows as [|a rows IH]; simpl; [auto|].
  intros Hnd. inversion Hnd as [|? ? Hnotin Hnd']; subst.
  destruct (keep a); simpl; auto.
  constructor; auto.
  intros H. apply Hnotin. apply in_map_iff in H as (x & Hx & Hin).
  apply filter_In in Hin as [Hin _]. apply in_map_iff. eauto.
Qed.

Lemma same_identity_ids l l' :
  Forall2 same_identity l l' -> map User.id l' = map User.id l.
Proof. apply Forall2_map_eq. unfold same_identity. tauto. Qed.

Lemma same_identity_usernames l l' :
  Forall2 same_identity l l' -> map User.username l' = map User.username l.
Proof. apply Forall2_map_eq. unfold same_identity. tauto. Qed.

Lemma same_identity_emails l l' :
  Forall2 same_identity l l' -> map User.email l' = map User.email l.
Proof. apply Forall2_map_eq. unfold same_identity. tauto. Qed.

(** The constraints of the tables hold along every transition. *)
Lemma transition_well_formed P U db db' :
  transition P U db db' -> well_formed db -> well_formed db'.
Proof.
  induction 1 as [db db' HU HT Hs1 Hs2|db u Hid HUn Hnew|db r Hid HP Hnew Hfk|db pk
                 |db pk h0 now0|db e0|];
    intros Hwf; [| | | | | |auto].
  - destruct Hwf as [W1 W2 W3 W4 W5 W6 W7 W8]. constructor.
    + now rewrite (same_identity_ids _ _ HU).
    + intros u' Hin. destruct (Forall2_In_r _ _ _ _ HU Hin) as (u & Hin0 & Hi).
      destruct Hi as (-> & _). rewrite Hs1. auto.
    + now rewrite (same_identity_usernames _ _ HU).
    + now rewrite (same_identity_emails _ _ HU).
    + now rewrite (same_keys_ids _ _ HT).
    + intros r' Hin. destruct (Forall2_In_r _ _ _ _ HT Hin) as (r & Hin0 & Hk).
      destruct Hk as (-> & _). rewrite Hs2. auto.
    + now rewrite (same_keys_tokens _ _ HT).
    + intros r' Hin. destruct (Forall2_In_r _ _ _ _ HT Hin) as (r & Hin0 & Hk).
      destruct Hk as (_ & -> & _).
      destruct (W8 r Hin0) as (u & Hu & Hid).
      destruct (Forall2_In_l _ _ _ _ HU Hu) as (u' & Hu' & Hi).
      destruct Hi as (Hi & _). exists u'. split; [auto|congruence].
  - destruct Hwf as [W1 W2 W3 W4 W5 W6 W7 W8]. constructor; simpl; auto.
    + rewrite map_app. simpl. apply NoDup_snoc; auto.
      intros H. apply in_map_iff in H as (u' & He & Hin).
      specialize (W2 u' Hin). lia.
    + intros u' Hin. apply in_app_iff in Hin as [Hin|[<-|[]]].
      * specialize (W2 u' Hin). lia.
      * lia.
    + rewrite map_app. simpl. apply NoDup_snoc; auto.
      intros H. apply in_map_iff in H as (u' & He & Hin).
      destruct (Hnew u' Hin). auto.
    + rewrite map_app. simpl. apply NoDup_snoc; auto.
      intros H. apply in_map_iff in H as (u' & He & Hin).
      destruct (Hnew u' Hin). auto.
    + intros r Hin. destruct (W8 r Hin) as (u0 & Hu0 & Hid0).
      exists u0. rewrite in_app_iff. auto.
  - destruct Hwf as [W1 W2 W3 W4 W5 W6 W7 W8]. constructor; simpl; auto.
    + rewrite map_app. simpl. apply NoDup_snoc; auto.
      intros H. apply in_map_iff in H as (r' & He & Hin).
      specialize (W6 r' Hin). lia.
    + intros r' Hin. apply in_app_iff in Hin as [Hin|[<-|[]]].
      * specialize (W6 r' Hin). lia.
      * lia.
    + rewrite map_app. simpl. apply NoDup_snoc; auto.
      intros H. apply in_map_iff in H as (r' & He & Hin).
      apply (Hnew r' Hin). auto.
    + intros r' Hin. apply in_app_iff in Hin as [Hin|[<-|[]]]; auto.
  - destruct Hwf as [W1 W2 W3 W4 W5 W6 W7 W8].
    unfold delete_user. constructor; simpl.
    + now apply NoDup_map_filter.
    + intros u Hin. apply filter_In in Hin as [Hin _]. auto.
    + now apply NoDup_map_filter.
    + now apply NoDup_map_filter.
    + now apply NoDup_map_filter.
    + intros r Hin. apply filter_In in Hin as [Hin _]. auto.
    + now apply NoDup_map_filter.
    + intros r Hin. apply filter_In in Hin as [Hin Hpk].
      destruct (W8 r Hin) as (u & Hu & Hid).
      exists u. split; [|exact Hid].
      apply filter_In. split; [exact Hu|]. now rewrite Hid.
  - destruct Hwf as [W1 W2 W3 W4 W5 W6 W7 W8]. constructor; simpl; auto.
    + eapply Permutation_NoDup; [|exact W1].
      apply Permutation_sym, update_hashed_password_column. reflexivity.
    + intros u' Hin.
      apply update_hashed_password_same_identity in Hin as (u & Hu & Hi).
      destruct Hi as (-> & _). auto.
    + eapply Permutation_NoDup; [|exact W3].
      apply Permutation_sym, update_hashed_password_column. reflexivity.
    + eapply Permutation_NoDup; [|exact W4].
      apply Permutation_sym, update_hashed_password_column. reflexivity.
    + intros r Hin. destruct (W8 r Hin) as (u & Hu & Hid).
      destruct (update_hashed_password_kept pk h0 now0 _ u Hu) as (u' & Hu' & Hi).
      destruct Hi as (Hi & _). exists u'. split; [exact Hu'|congruence].
  - destruct Hwf as [W1 W2 W3 W4 W5 W6 W7 W8].
    destruct e0; try (constructor; assumption).
    constructor; simpl; auto.
    intros r Hin. specialize (W6 r Hin). lia.
Qed.

(** A revoked row stays revoked, or disappears with its owner, along
    every transition. *)
Lemma transition_revoked_for_good P U r0 db db' :
  transition P U db db' ->
  well_formed db -> revoked_for_good r0 db -> revoked_for_good r0 db'.
Proof.
  induction 1 as [db db' HU HT Hs1 Hs2|db u Hid HUn Hnew|db r Hid HP Hnew Hfk|db pk
                 |db pk h0 now0|db e0|db1 db2 db3 H12 IH12 H23 IH23];
    intros Hwf [Hseq Hcase].
  - split; [rewrite Hs2; exact Hseq|].
    destruct Hcase as [(r & Hin & Hk & Hrev)|(Hnu & Hlt & Hnr)].
    + left. destruct (Forall2_In_l _ _ _ _ HT Hin) as (r' & Hin' & Hk').
      exists r'. split; [exact Hin'|split].
      * eapply same_keys_trans; eauto.
      * destruct Hk' as (_ & _ & _ & _ & Hr). auto.
    + right. repeat split.
      * intros u' Hin. destruct (Forall2_In_r _ _ _ _ HU Hin) as (u & Hin0 & Hi).
        destruct Hi as (-> & _). auto.
      * rewrite Hs1. exact Hlt.
      * intros r' Hin. destruct (Forall2_In_r _ _ _ _ HT Hin) as (r & Hin0 & Hk).
        destruct Hk as (-> & _). auto.
  - split; [exact Hseq|]. simpl.
    destruct Hcase as [H|(Hnu & Hlt & Hnr)]; [left; exact H|right].
    repeat split; auto; [|lia].
    intros u' Hin. apply in_app_iff in Hin as [Hin|[<-|[]]]; [auto|lia].
  - split; [simpl; lia|]. simpl.
    destruct Hcase as [(r1 & Hin & Hk)|(Hnu & Hlt & Hnr)].
    + left. exists r1. rewrite in_app_iff. tauto.
    + right. repeat split; auto.
      intros r' Hin. apply in_app_iff in Hin as [Hin|[<-|[]]]; [auto|lia].
  - split; [exact Hseq|]. unfold delete_user. simpl.
    destruct Hcase as [(r & Hin & Hk & Hrev)|(Hnu & Hlt & Hnr)].
    + pose proof Hk as (Hkid & Hkuid & Hktok & _).
      destruct (Z.eqb_spec (RefreshToken.user_id r0) pk) as [Hpk|Hpk].
      * right. repeat split.
        -- intros u Hu. apply filter_In in Hu as [_ Hu].
           apply negb_true_iff, Z.eqb_neq in Hu. congruence.
        -- destruct (wf_foreign_key _ Hwf r Hin) as (u & Hu & Hid).
           pose proof (wf_user_seq _ Hwf u Hu). congruence.
        -- intros r' Hin' Hid'. apply filter_In in Hin' as [Hin' Hne].
           assert (r' = r)
             by (eapply NoDup_map_inj;
                 [apply (wf_token_ids _ Hwf)|auto|auto|congruence]).
           subst r'. apply negb_true_iff, Z.eqb_neq in Hne. congruence.
      * left. exists r. split; [|auto].
        apply filter_In. split; [exact Hin|].
        apply negb_true_iff, Z.eqb_neq. congruence.
    + right. repeat split; auto.
      * intros u Hu. apply filter_In in Hu as [Hu _]. auto.
      * intros r' Hin'. apply filter_In in Hin' as [Hin' _]. auto.
  - split; [exact Hseq|]. simpl.
    destruct Hcase as [H|(Hnu & Hlt & Hnr)]; [left; exact H|right].
    split; [|split; assumption].
    intros u' Hin.
    apply update_hashed_password_same_identity in Hin as (u & Hu & Hi).
    destruct Hi as (-> & _). auto.
  - destruct e0; try (split; assumption).
    split; [simpl; lia|exact Hcase].
  - apply IH23; [eapply transition_well_formed; eauto|].
    apply IH12; auto. split; auto.
Qed.

(** Rows revoked under a token string stay the only rows of that string
    as long as the string is not drawn again. *)
Lemma transition_all_revoked (P U : string -> Prop) token db db' :
  transition P U db db' ->
  ~ P token -> all_revoked token db -> all_revoked token db'.
Proof.
  induction 1 as [db db' HU HT Hs1 Hs2|db u Hid HUn Hnew|db r Hid HP Hnew Hfk|db pk
                 |db pk h0 now0|db e0|];
    intros HnP Hall; auto.
  - intros r' Hin Ht. destruct (Forall2_In_r _ _ _ _ HT Hin) as (r & Hin0 & Hk).
    destruct Hk as (_ & _ & Hkt & _ & Hr). apply Hr, Hall; congruence.
  - intros r' Hin Ht. simpl in Hin. apply in_app_iff in Hin as [Hin|[<-|[]]].
    + auto.
    + exfalso. apply HnP. now rewrite <- Ht.
  - intros r' Hin Ht. unfold delete_user in Hin. simpl in Hin.
    apply filter_In in Hin as [Hin _]. auto.
  - destruct e0; exact Hall.
Qed.

Lemma run_well_formed E calls db :
  well_formed db -> well_formed (run E calls db).
Proof.
  apply transition_well_formed with (P := drawn calls) (U := registered calls).
  apply run_transition.
Qed.

(** The constraints hold in every store the API can reach from the empty
    tables. *)
Lemma reachable_well_formed E calls :
  well_formed (run E calls empty_session).
Proof.
  apply run_well_formed. constructor; simpl; try constructor; tauto.
Qed.

Lemma revoked_for_good_init db r0 :
  well_formed db -> In r0 (refresh_tokens db) ->
  RefreshToken.is_revoked r0 = true -> revoked_for_good r0 db.
Proof.
  intros Hwf Hin Hrev. split; [apply (wf_token_seq _ Hwf), Hin|].
  left. exists r0. auto using same_keys_refl.
Qed.

Lemma run_revoked_for_good E calls db r0 :
  well_formed db -> revoked_for_good r0 db ->
  revoked_for_good r0 (run E calls db).
Proof.
  intros Hwf H.
  eapply transition_revoked_for_good; eauto using run_transition.
Qed.

(** What [revoked_for_good] means for the rows and for verification. *)
Lemma revoked_for_good_rows db r0 r :
  well_formed db -> revoked_for_good r0 db ->
  In r (refresh_tokens db) -> RefreshToken.id r = RefreshToken.id r0 ->
  same_keys r0 r /\ RefreshToken.is_revoked r = true.
Proof.
  intros Hwf [_ [(r1 & Hin1 & Hk & Hrev)|(_ & _ & Hnr)]] Hin Hid.
  - assert (r = r1); [|subst; auto].
    eapply NoDup_map_inj; [apply (wf_token_ids _ Hwf)|auto|auto|].
    destruct Hk as (-> & _). exact Hid.
  - exfalso. eapply Hnr; eauto.
Qed.

Lemma revoked_for_good_verify db r0 now :
  well_formed db -> revoked_for_good r0 db ->
  verify_refresh_token (RefreshToken.token r0) db now
  <> Some (RefreshToken.user_id r0).
Proof.
  intros Hwf [_ Hcase] V.
  apply verify_refresh_token_Some in V as (r & Hin & (Ht & Hr & _) & Hu).
  destruct Hcase as [(r1 & Hin1 & Hk & Hrev)|(Hnu & _ & _)].
  - assert (r = r1); [|congruence].
    eapply NoDup_map_inj; [apply (wf_tokens _ Hwf)|auto|auto|].
    destruct Hk as (_ & _ & -> & _). exact Ht.
  - destruct (wf_foreign_key _ Hwf r Hin) as (u & Hinu & Hid).
    apply (Hnu u Hinu). congruence.
Qed.

Lemma revoked_for_good_stored db r0 now :
  well_formed db -> revoked_for_good r0 db ->
  (exists r, In r (refresh_tokens db) /\ RefreshToken.id r = RefreshToken.id r0) ->
  verify_refresh_token (RefreshToken.token r0) db now = None.
Proof.
  intros Hwf Hgood (r & Hin & Hid). apply all_revoked_verify.
  destruct (revoked_for_good_rows db r0 r Hwf Hgood Hin Hid) as [Hk Hrev].
  intros r2 Hin2 Ht2.
  assert (r2 = r); [|congruence].
  eapply NoDup_map_inj; [apply (wf_tokens _ Hwf)|auto|auto|].
  destruct Hk as (_ & _ & -> & _). exact Ht2.
Qed.

Lemma create_refresh_token_Ok settings user_id db ua ip token now t db' :
  create_refresh_token settings user_id db ua ip token now = Ok (t, db') ->
  exists r, refresh_tokens db' = refresh_tokens db ++ [r]
            /\ RefreshToken.is_revoked r = false
            /\ RefreshToken.id r = refresh_tokens_id_seq db
            /\ RefreshToken.token r = token /\ t = token.
Proof.
  intros H. apply create_refresh_token_inv in H as (-> & _ & _ & ->).
  eexists. simpl. repeat split; reflexivity.
Qed.

(** C1. Revocation is terminal.  [create_refresh_token] only appends a
    row, whose flag is [false]; [revoke_refresh_token] and
    [revoke_all_user_tokens] keep the key columns of every row and never
    clear a flag that is set.  Hence, from a store that satisfies the
    constraints of its tables and after any sequence of calls to the API:
    a row that was revoked is, if it is still stored, still revoked;
    [verify_refresh_token] on its token string never returns its user id,
    at any time; and it returns [None] as long as the row is stored. *)
Theorem revocation_is_terminal (E : Env.t) (calls : list (Call * Inputs))
    (db : Session) (r0 : RefreshToken.t)
    (Hwf : well_formed db)
    (Hin : In r0 (refresh_tokens db))
    (Hrev : RefreshToken.is_revoked r0 = true) :
  let db' := run E calls db in
  (forall settings user_id ua ip token now t db1,
     create_refresh_token settings user_id db ua ip token now = Ok (t, db1) ->
     exists r, refresh_tokens db1 = refresh_tokens db ++ [r]
               /\ RefreshToken.is_revoked r = false)
  /\ (forall token now,
        Forall2 same_keys (refresh_tokens db)
                (refresh_tokens (snd (revoke_refresh_token token db now))))
  /\ (forall user_id clock,
        Forall2 same_keys (refresh_tokens db)
                (refresh_tokens (snd (revoke_all_user_tokens user_id db clock))))
  /\ (forall r, In r (refresh_tokens db') ->
        RefreshToken.id r = RefreshToken.id r0 ->
        same_keys r0 r /\ RefreshToken.is_revoked r = true)
  /\ (forall now, verify_refresh_token (RefreshToken.token r0) db' now
                  <> Some (RefreshToken.user_id r0))
  /\ (forall now,
        (exists r, In r (refresh_tokens db')
                   /\ RefreshToken.id r = RefreshToken.id r0) ->
        verify_refresh_token (RefreshToken.token r0) db' now = None).
Proof.
  cbv zeta.
  pose proof (run_well_formed E calls db Hwf) as Hwf'.
  pose proof (run_revoked_for_good E calls db r0 Hwf
                (revoked_for_good_init db r0 Hwf Hin Hrev)) as Hgood.
  split; [|split; [|split; [|split; [|split]]]].
  - intros settings user_id ua ip token now t db1 H.
    apply create_refresh_token_Ok in H as (r & ? & ? & _). eauto.
  - intros token now. unfold revoke_refresh_token.
    destruct (Query.first _ _); simpl.
    + apply revoke_first_same_keys.
    + apply Forall2_refl, same_keys_refl.
  - intros. apply revoke_all_user_tokens_same_keys.
  - intros r Hr Hid. now apply revoked_for_good_rows with (db := run E calls db).
  - intros now. now apply revoked_for_good_verify.
  - intros now Hex. now apply revoked_for_good_stored.
Qed.

(** The theorem at the sample store, where [t2] is revoked: Alice logs
    out with it once more and logs in anew, then she deletes her account
    and somebody registers under her username.  [t2] does not verify as
    her at time 50, before its expiry. *)
Lemma revocation_is_terminal_witness :
    verify_refresh_token "t2"
      (run Sample.env
         [(POST_logout "t2", Sample.inputs 10);
          (POST_login_json (schemas.mkLoginRequest "alice" "pw-alice" true)
                           (mkRequest None None), Sample.inputs 20);
          (DELETE_delete_account "k.alice", Sample.inputs 30);
          (POST_register (schemas.mkUserCreate "a@example.com" "alice" "pw"),
           Sample.inputs 40)]
         Sample.db) 50
    <> Some 1.
Proof.
  refine (proj1 (proj2 (proj2 (proj2 (proj2
            (revocation_is_terminal Sample.env _ Sample.db
               (Sample.tok 2 1 "t2" 100 true) sample_db_well_formed _ eq_refl)))))
            50).
  simpl. auto.
Defined.

(** ** Deleting the account *)

(** A username that is not stored stays so as long as nobody registers
    under it. *)
Lemma transition_no_username (P U : string -> Prop) name db db' :
  transition P U db db' ->
  ~ U name ->
  (forall u, In u (users db) -> User.username u <> name) ->
  forall u, In u (users db') -> User.username u <> name.
Proof.
  induction 1 as [db db' HU HT Hs1 Hs2|db u Hid HUn Hnew|db r Hid HP Hnew Hfk|db pk
                 |db pk h0 now0|db e0|];
    intros HnU Hno; auto.
  - intros u' Hin. destruct (Forall2_In_r _ _ _ _ HU Hin) as (u & Hin0 & Hi).
    destruct Hi as (_ & -> & _). auto.
  - intros u' Hin. simpl in Hin. apply in_app_iff in Hin as [Hin|[<-|[]]]; [auto|].
    intros Heq. apply HnU. now rewrite <- Heq.
  - intros u' Hin. unfold delete_user in Hin. simpl in Hin.
    apply filter_In in Hin as [Hin _]. auto.
  - intros u' Hin. simpl in Hin.
    apply update_hashed_password_same_identity in Hin as (u & Hu & Hi).
    destruct Hi as (_ & -> & _). auto.
  - destruct e0; exact Hno.
Qed.

(** C10. When the bearer token decodes (it is correctly signed and not
    expired) but its claims have no [sub], or a [sub] that is the username
    of no stored user, [get_current_user] raises the 401 "Could not
    validate credentials", and so does every endpoint behind it, leaving
    the store as it was.  Hence a successful [delete_account] makes every
    token whose subject is the deleted user's username rejected in this
    way, in the store it leaves and after any further calls, as long as
    nobody registers under that username again. *)
Theorem get_current_user_unknown_subject (E : Env.t) (token : string)
    (db : Session) (now : datetime) (payload : Dict)
    (Hdecode : decode_access_token E token now = Some payload) :
  let e := HTTPException 401 "Could not validate credentials" in
  ((dict_get "sub" payload = None
    \/ exists v, dict_get "sub" payload = Some v
                 /\ forall u, In u (users db) ->
                      value_eqb_string v (User.username u) = false) ->
   get_current_user E token db now = Raise e
   /\ get_current_active_user E token db now = Raise e
   /\ (forall clock, logout_all E token db now clock = (Raise e, db))
   /\ get_current_user_info E token db now = (Raise e, db)
   /\ (forall pw salt clock,
         change_password E pw token db salt now clock = (Raise e, db))
   /\ (forall clock, delete_account E token db now clock = (Raise e, db)))
  /\ (forall db0 bearer now0 clock0 resp u,
        well_formed db0 ->
        get_current_user E bearer db0 now0 = Ok u ->
        delete_account E bearer db0 now0 clock0 = (Ok resp, db) ->
        dict_get "sub" payload = Some (VStr (User.username u)) ->
        get_current_user E token db now = Raise e
        /\ forall calls,
             ~ registered calls (User.username u) ->
             get_current_user E token (run E calls db) now = Raise e).
Proof.
  cbv zeta.
  assert (Hrej : forall db1,
    (dict_get "sub" payload = None
     \/ exists v, dict_get "sub" payload = Some v
                  /\ forall u, In u (users db1) ->
                       value_eqb_string v (User.username u) = false) ->
    get_current_user E token db1 now
    = Raise (HTTPException 401 "Could not validate credentials")).
  { intros db1. unfold decode_access_token in Hdecode. unfold get_current_user.
    rewrite Hdecode. intros [->|(v & -> & Hv)]; [reflexivity|].
    destruct (Query.first _ _) as [u|] eqn:F; [|reflexivity].
    apply find_some in F as [Hin Hu]. rewrite (Hv u Hin) in Hu. discriminate. }
  split.
  - intros H. specialize (Hrej db H).
    assert (Ha : get_current_active_user E token db now
                 = Raise (HTTPException 401 "Could not validate credentials"))
      by (unfold get_current_active_user; rewrite Hrej; reflexivity).
    unfold logout_all, get_current_user_info, change_password, delete_account.
    rewrite Ha. repeat split; auto.
  - intros db0 bearer now0 clock0 resp u Hwf Hu Hdel Hsub.
    apply delete_account_Ok in Hdel as (u' & Hu' & _ & ->).
    rewrite Hu in Hu'. injection Hu' as <-.
    assert (Hgone : forall u2,
              In u2 (users (delete_user (User.id u)
                              (snd (revoke_all_user_tokens (User.id u) db0 clock0)))) ->
              User.username u2 <> User.username u).
    { intros u2 Hin2.
      pose proof (revoke_all_user_tokens_rows (User.id u) db0 clock0)
        as (_ & Husers & _).
      apply (delete_user_username
               (snd (revoke_all_user_tokens (User.id u) db0 clock0)) u u2);
        [rewrite Husers|rewrite Husers|exact Hin2].
      - apply (wf_usernames _ Hwf).
      - eapply get_current_user_In; eauto. }
    assert (Hstore : forall db1,
              (forall u2, In u2 (users db1) -> User.username u2 <> User.username u) ->
              get_current_user E token db1 now
              = Raise (HTTPException 401 "Could not validate credentials")).
    { intros db1 H1. apply Hrej. right.
      exists (VStr (User.username u)). split; [exact Hsub|].
      intros u2 Hin2. simpl. apply String.eqb_neq. intros Heq.
      apply (H1 u2 Hin2). congruence. }
    split; [apply Hstore, Hgone|].
    intros calls Hfresh. apply Hstore.
    eapply transition_no_username; eauto using run_transition.
Qed.

(** The theorem at the sample store: a token for a user that never
    existed; and Alice's token after Alice deleted her account, also once
    somebody else has registered as Carol. *)
Lemma get_current_user_unknown_subject_witness :
  let db' := snd (delete_account Sample.env "k.alice" Sample.db 10 (fun _ => 10)) in
  let calls :=
    [(POST_register (schemas.mkUserCreate "carol@example.com" "carol" "pw-carol"),
      Sample.inputs 15)] in
  get_current_user Sample.env "k.carol" Sample.db 10
  = Raise (HTTPException 401 "Could not validate credentials")
  /\ get_current_user Sample.env "k.alice" db' 20
     = Raise (HTTPException 401 "Could not validate credentials")
  /\ get_current_user Sample.env "k.alice" (run Sample.env calls db') 20
     = Raise (HTTPException 401 "Could not validate credentials").
Proof.
  cbv zeta.
  pose proof (proj2 (get_current_user_unknown_subject Sample.env "k.alice"
                (snd (delete_account Sample.env "k.alice" Sample.db 10 (fun _ => 10)))
                20 [("sub", VStr "alice")] eq_refl)
              Sample.db "k.alice" 10 (fun _ => 10)
              (schemas.MessageResponse "Account deleted successfully")
              Sample.alice sample_db_well_formed eq_refl eq_refl eq_refl)
    as [Hnow Hlater].
  split; [|split].
  - apply (proj1 (get_current_user_unknown_subject Sample.env "k.carol" Sample.db 10
                    [("sub", VStr "carol")] eq_refl)).
    right. exists (VStr "carol"). split; [reflexivity|].
    intros u [<-|[<-|[]]]; reflexivity.
  - exact Hnow.
  - apply Hlater. intros H. apply Exists_cons in H as [H|H].
    + simpl in H. discriminate H.
    + apply Exists_nil in H. exact H.
Defined.

(** ** Changing the password *)

Lemma value_eqb_string_true v s :
  value_eqb_string v s = true -> v = VStr s.
Proof.
  destruct v; simpl; try discriminate.
  intros H. apply String.eqb_eq in H. now subst.
Qed.

(** The row that an update of the hash moves is still the one found under
    its username, as long as usernames are unique. *)
Lemma find_update_hashed_password v pk h now0 rows :
  NoDup (map User.username rows) ->
  find (fun u => value_eqb_string v (User.username u))
       (update_hashed_password pk h now0 rows)
  = option_map
      (fun u => if User.id u =? pk then User.set_hashed_password h now0 u else u)
      (find (fun u => value_eqb_string v (User.username u)) rows).
Proof.
  intros Hnd.
  destruct (find _ rows) as [x|] eqn:F; simpl.
  - apply find_some in F as [Hx Hpx].
    destruct (find _ (update_hashed_password pk h now0 rows)) as [y|] eqn:F'.
    + apply find_some in F' as [Hy Hpy].
      apply value_eqb_string_true in Hpx, Hpy.
      apply update_hashed_password_In in Hy as [[Hy Hid]|(u & Hu & Hid & ->)].
      * assert (y = x) as ->.
        { apply (NoDup_map_inj User.username rows); auto. congruence. }
        apply Z.eqb_neq in Hid. now rewrite Hid.
      * assert (u = x) as ->.
        { apply (NoDup_map_inj User.username rows); auto.
          simpl in Hpy. congruence. }
        now rewrite Hid, Z.eqb_refl.
    + exfalso.
      destruct (update_hashed_password_kept pk h now0 rows x Hx) as (x' & Hx' & Hi).
      pose proof (find_none _ _ F' x' Hx') as Hn. simpl in Hn.
      destruct Hi as (_ & Hname & _). rewrite Hname in Hn.
      simpl in Hpx. congruence.
  - destruct (find _ (update_hashed_password pk h now0 rows)) as [y|] eqn:F';
      [|reflexivity].
    exfalso. apply find_some in F' as [Hy Hpy].
    apply update_hashed_password_same_identity in Hy as (u & Hu & Hi).
    pose proof (find_none _ _ F u Hu) as Hn. simpl in Hn.
    destruct Hi as (_ & Hname & _). simpl in Hpy. rewrite Hname in Hpy.
    congruence.
Qed.

(** Updating a password hash changes the outcome of [get_current_user]
    only in the hash of the user it returns. *)
Lemma get_current_user_update_hashed_password E token db now pk h now0 :
  NoDup (map User.username (users db)) ->
  get_current_user E token
    (set_users (update_hashed_password pk h now0 (users db)) db) now
  = match get_current_user E token db now with
    | Ok u => Ok (if User.id u =? pk then User.set_hashed_password h now0 u else u)
    | Raise e => Raise e
    end.
Proof.
  intros Hnd. unfold get_current_user. simpl.
  destruct (Env.jwt_decode _ _ _ _ _) as [payload|]; [|reflexivity].
  destruct (dict_get "sub" payload) as [v|]; [|reflexivity].
  unfold Query.first. rewrite (find_update_hashed_password v pk h now0 _ Hnd).
  destruct (find _ (users db)); reflexivity.
Qed.

Lemma get_current_user_revoke_all E token db now user_id clock :
  get_current_user E token (snd (revoke_all_user_tokens user_id db clock)) now
  = get_current_user E token db now.
Proof.
  destruct (revoke_all_user_tokens_rows user_id db clock) as (_ & Hu & _).
  unfold get_current_user. now rewrite Hu.
Qed.

Lemma refresh_access_token_invalid E token db now :
  verify_refresh_token token db now = None ->
  refresh_access_token E token db now
  = (Raise (HTTPException 401 "Invalid or expired refresh token"), db).
Proof. unfold refresh_access_token. now intros ->. Qed.

(** C9. After a successful [change_password] of a user, in a store that
    satisfies the constraints of its tables: every refresh-token row the
    user had is stored revoked; a refresh call that bears one of these
    token strings is answered with the 401 of an invalid token, at any
    time and after any further calls to the API (which draw other token
    strings), and never verifies as the user whatever is drawn.  Bearer
    tokens are not affected: a token that [get_current_user] and
    [get_current_active_user] accept at some time in the store before the
    change, they accept at that time in the store after it, for the same
    user. *)
Theorem change_password_revokes_refresh_tokens (E : Env.t)
    (password_data : schemas.PasswordChangeRequest) (bearer : string)
    (db : Session) (salt : string) (now : datetime) (clock : nat -> datetime)
    (resp : schemas.Response) (db' : Session)
    (Hwf : well_formed db)
    (Hok : change_password E password_data bearer db salt now clock = (Ok resp, db')) :
  exists u,
    get_current_user E bearer db now = Ok u
    /\ (forall r, In r (refresh_tokens db) ->
          RefreshToken.user_id r = User.id u ->
          (exists r', In r' (refresh_tokens db') /\ same_keys r r'
                      /\ RefreshToken.is_revoked r' = true)
          /\ (forall now', refresh_access_token E (RefreshToken.token r) db' now'
                = (Raise (HTTPException 401 "Invalid or expired refresh token"), db'))
          /\ (forall calls now',
                ~ drawn calls (RefreshToken.token r) ->
                refresh_access_token E (RefreshToken.token r) (run E calls db') now'
                = (Raise (HTTPException 401 "Invalid or expired refresh token"),
                   run E calls db'))
          /\ (forall calls now',
                verify_refresh_token (RefreshToken.token r) (run E calls db') now'
                <> Some (User.id u)))
    /\ (forall token now' v,
          get_current_user E token db now' = Ok v ->
          exists v', get_current_user E token db' now' = Ok v'
                     /\ same_identity v v')
    /\ (forall token now' v,
          get_current_active_user E token db now' = Ok v ->
          exists v', get_current_active_user E token db' now' = Ok v'
                     /\ same_identity v v').
Proof.
  pose proof (change_password_transition (fun _ => False) (fun _ => False) E
                password_data bearer
                db salt now clock) as Htr.
  rewrite Hok in Htr. simpl in Htr.
  pose proof (transition_well_formed _ _ _ _ Htr Hwf) as Hwf'.
  apply change_password_Ok in Hok as (u & h & Hu & _ & _ & _ & Hdb').
  set (db1 := set_users (update_hashed_password (User.id u) h now (users db)) db)
    in Hdb'.
  assert (Haccess : forall token now' v,
            get_current_user E token db now' = Ok v ->
            exists v', get_current_user E token db' now' = Ok v'
                       /\ same_identity v v').
  { intros token now' v Hv. subst db'.
    rewrite get_current_user_revoke_all. unfold db1.
    rewrite get_current_user_update_hashed_password, Hv;
      [|apply (wf_usernames _ Hwf)].
    eexists. split; [reflexivity|].
    destruct (User.id v =? User.id u); unfold same_identity; simpl; tauto. }
  exists u. split; [exact Hu|]. split; [|split; [exact Haccess|]].
  - intros r Hin Hr.
    destruct (revoke_all_user_tokens_rows (User.id u) db1 clock) as (HF & _).
    rewrite <- Hdb' in HF.
    destruct (Forall2_In_l _ _ _ _ HF Hin) as (r' & Hin' & HR).
    pose proof (revoked_by_loop_same_keys _ _ _ _ _ _ HR) as Hk.
    apply revoked_by_loop_keys in HR as (_ & Hu' & Ht' & _ & _ & Hrev').
    specialize (Hrev' Hr).
    assert (Hall : all_revoked (RefreshToken.token r) db').
    { rewrite <- Ht', Hdb'. apply revoke_all_user_tokens_all_revoked.
      - apply (wf_tokens _ Hwf).
      - now rewrite <- Hdb'.
      - congruence. }
    split; [eauto|]. split; [|split].
    + intros now'. apply refresh_access_token_invalid.
      now apply all_revoked_verify.
    + intros calls now' Hfresh. apply refresh_access_token_invalid.
      apply all_revoked_verify.
      eapply transition_all_revoked; eauto using run_transition.
    + intros calls now'. rewrite <- Ht', <- Hr, <- Hu'.
      apply revoked_for_good_verify; [now apply run_well_formed|].
      apply run_revoked_for_good; [exact Hwf'|].
      now apply revoked_for_good_init.
  - intros token now' v Hv.
    apply get_current_active_user_Ok in Hv as [Hv Ha].
    destruct (Haccess token now' v Hv) as (v' & Hv' & Hid).
    exists v'. split; [|exact Hid].
    apply get_current_active_user_Ok. split; [exact Hv'|].
    destruct Hid as (_ & _ & _ & ->). exact Ha.
Qed.

(** The theorem at the sample store: Alice changes her password at time
    10; her token [t1], valid until 100, is refused at time 20. *)
Lemma change_password_revokes_refresh_tokens_witness :
  let pw := schemas.mkPasswordChangeRequest "pw-alice" "new-password" in
  let db' := snd (change_password Sample.env pw "k.alice" Sample.db "s" 10
                    (fun _ => 10)) in
  verify_refresh_token "t1" Sample.db 20 = Some 1
  /\ refresh_access_token Sample.env "t1" db' 20
     = (Raise (HTTPException 401 "Invalid or expired refresh token"), db').
Proof.
  cbv zeta. split; [reflexivity|].
  destruct (change_password_revokes_refresh_tokens Sample.env
              (schemas.mkPasswordChangeRequest "pw-alice" "new-password")
              "k.alice" Sample.db "s" 10 (fun _ => 10)
              (schemas.MessageResponse
                 "Password changed successfully. Please login again.")
              (snd (change_password Sample.env
                      (schemas.mkPasswordChangeRequest "pw-alice" "new-password")
                      "k.alice" Sample.db "s" 10 (fun _ => 10)))
              sample_db_well_formed eq_refl) as (u & Hu & Hr & _).
  injection Hu as <-.
  destruct (Hr (Sample.tok 1 1 "t1" 100 false)) as (_ & H & _).
  - simpl. auto.
  - reflexivity.
  - exact (H 20).
Defined.

(** ** Further properties: the lifetime of a refresh token *)

Lemma dead_at_verify token now db :
  dead_at token now db <-> verify_refresh_token token db now = None.
Proof.
  rewrite verify_refresh_token_None. unfold dead_at, valid_row. split.
  - intros H r Hin (Ht & Hr & He). destruct (H r Hin Ht); [congruence|lia].
  - intros H r Hin Ht.
    destruct (RefreshToken.is_revoked r) eqn:Hr; [auto|].
    destruct (Z.ltb_spec now (RefreshToken.expires_at r)); [|auto].
    exfalso. apply (H r Hin). auto.
Qed.

Lemma dead_at_later token now now' db :
  now <= now' -> dead_at token now db -> dead_at token now' db.
Proof.
  intros Hle H r Hin Ht. destruct (H r Hin Ht); [auto|right; lia].
Qed.

Lemma transition_dead_at (P U : string -> Prop) token now db db' :
  transition P U db db' ->
  ~ P token -> dead_at token now db -> dead_at token now db'.
Proof.
  induction 1 as [db db' HU HT Hs1 Hs2|db u Hid HUn Hnew|db r Hid HP Hnew Hfk|db pk
                 |db pk h0 now0|db e0|];
    intros HnP Hdead; auto.
  - intros r' Hin Ht. destruct (Forall2_In_r _ _ _ _ HT Hin) as (r & Hin0 & Hk).
    destruct Hk as (_ & _ & Hkt & Hke & Hr).
    destruct (Hdead r Hin0) as [H|H]; [congruence|auto|right; congruence].
  - intros r' Hin Ht. simpl in Hin. apply in_app_iff in Hin as [Hin|[<-|[]]].
    + auto.
    + exfalso. apply HnP. now rewrite <- Ht.
  - intros r' Hin Ht. unfold delete_user in Hin. simpl in Hin.
    apply filter_In in Hin as [Hin _]. auto.
  - destruct e0; exact Hdead.
Qed.

(** X1. A token string that does not verify at some time (it is unknown,
    revoked or expired) does not verify at any later time either, in the
    same store or after any sequence of calls to the API in which no
    login draws that very string: no call clears a revocation or moves an
    expiry. *)
Theorem invalid_token_stays_invalid (E : Env.t) (calls : list (Call * Inputs))
    (db : Session) (token : string) (now now' : datetime)
    (Hinvalid : verify_refresh_token token db now = None)
    (Hlater : now <= now')
    (Hfresh : ~ drawn calls token) :
  verify_refresh_token token db now' = None
  /\ verify_refresh_token token (run E calls db) now' = None
  /\ fst (refresh_access_token E token (run E calls db) now')
     = Raise (HTTPException 401 "Invalid or expired refresh token").
Proof.
  apply dead_at_verify in Hinvalid.
  pose proof (dead_at_later _ _ _ _ Hlater Hinvalid) as Hdead.
  assert (Hrun : verify_refresh_token token (run E calls db) now' = None).
  { apply dead_at_verify.
    eapply transition_dead_at; eauto using run_transition. }
  split; [now apply dead_at_verify|]. split; [exact Hrun|].
  rewrite refresh_access_token_invalid by exact Hrun. reflexivity.
Qed.

(** The theorem at the sample store: [t1] expires at 100, so it does not
    verify at 100, nor at 150 after Alice has logged in again. *)
Lemma invalid_token_stays_invalid_witness :
  verify_refresh_token "t1"
    (run Sample.env
       [(POST_login_json (schemas.mkLoginRequest "alice" "pw-alice" true)
                         (mkRequest None None), Sample.inputs 120)]
       Sample.db) 150 = None.
Proof.
  refine (proj1 (proj2 (invalid_token_stays_invalid Sample.env _ Sample.db "t1"
                          100 150 eq_refl _ _))).
  - lia.
  - intros H. apply Exists_cons in H as [H|H].
    + simpl in H. destruct H as [_ H]. discriminate H.
    + apply Exists_nil in H. exact H.
Defined.

Lemma find_app_skip {A} (p : A -> bool) (l l2 : list A) :
  (forall x, In x l -> p x = false) -> find p (l ++ l2) = find p l2.
Proof.
  induction l as [|a l IH]; simpl; intros H; [reflexivity|].
  rewrite (H a) by auto. apply IH. auto.
Qed.

Lemma find_snoc_false {A} (p : A -> bool) (l : list A) (x : A) :
  p x = false -> find p (l ++ [x]) = find p l.
Proof.
  intros Hx. induction l as [|a l IH]; simpl; [now rewrite Hx|].
  destruct (p a); auto.
Qed.

(** X2. Issue and verify.  The string returned by a successful
    [create_refresh_token] is the one drawn; it verifies as the given
    user at every time strictly before [now + REFRESH_TOKEN_EXPIRE_DAYS]
    days and at no time from then on, and issuing it changes the
    verification of no other token string. *)
Theorem create_refresh_token_round_trip (settings : Settings.t) (user_id : Z)
    (db : Session) (ua ip : option string) (token : string) (now : datetime)
    (t : string) (db' : Session)
    (Hok : create_refresh_token settings user_id db ua ip token now = Ok (t, db')) :
  let expires_at :=
    now + timedelta_days (Settings.REFRESH_TOKEN_EXPIRE_DAYS settings) in
  t = token
  /\ (forall now', now' < expires_at ->
        verify_refresh_token t db' now' = Some user_id)
  /\ (forall now', expires_at <= now' ->
        verify_refresh_token t db' now' = None)
  /\ (forall t' now', t' <> token ->
        verify_refresh_token t' db' now' = verify_refresh_token t' db now')
  /\ users db' = users db.
Proof.
  cbv zeta. apply create_refresh_token_inv in Hok as (-> & X & _ & ->).
  assert (Hold : forall now' x, In x (refresh_tokens db) ->
                   is_valid_for token now' x = false).
  { intros now' x Hin. unfold is_valid_for.
    destruct (RefreshToken.token x =? token)%string eqn:T; [|reflexivity].
    exfalso. assert (true = false); [|discriminate].
    rewrite <- X. symmetry. apply existsb_exists. eauto. }
  split; [reflexivity|]. unfold verify_refresh_token, Query.first. simpl.
  split; [|split; [|split; [|reflexivity]]].
  - intros now' Hlt. rewrite find_app_skip by (apply Hold). simpl.
    unfold is_valid_for. simpl. rewrite String.eqb_refl.
    apply Z.ltb_lt in Hlt. rewrite Hlt. reflexivity.
  - intros now' Hle. rewrite find_app_skip by (apply Hold). simpl.
    unfold is_valid_for. simpl. rewrite String.eqb_refl.
    apply Z.ltb_ge in Hle. rewrite Hle. reflexivity.
  - intros t' now' Hne. rewrite find_snoc_false; [reflexivity|].
    unfold is_valid_for. simpl.
    apply not_eq_sym, String.eqb_neq in Hne. now rewrite Hne.
Qed.

(** The theorem at the sample store, with a lifetime of 30 days. *)
Lemma create_refresh_token_round_trip_witness :
  let db' :=
    mkSession (users Sample.db)
      (refresh_tokens Sample.db
         ++ [RefreshToken.mk 7 2 "fresh" (10 + timedelta_days 30) 10
               false None None None None]) 3 8 in
  verify_refresh_token "fresh" db' (10 + timedelta_days 30 - 1) = Some 2
  /\ verify_refresh_token "fresh" db' (10 + timedelta_days 30) = None.
Proof.
  cbv zeta.
  destruct (create_refresh_token_round_trip Sample.settings 2 Sample.db None None
              "fresh" 10 "fresh" _ eq_refl) as (_ & Hbefore & Hafter & _).
  split; [apply Hbefore|apply Hafter]; simpl; lia.
Defined.

Lemma token_not_stored_iff token rows :
  existsb (fun r => (RefreshToken.token r =? token)%string) rows = false
  <-> forall r, In r rows -> RefreshToken.token r <> token.
Proof.
  split.
  - intros X r Hin Ht. assert (true = false); [|discriminate].
    rewrite <- X. symmetry. apply existsb_exists. exists r.
    split; [exact Hin|]. now apply String.eqb_eq.
  - intros H. destruct (existsb _ _) eqn:X; [|reflexivity].
    apply existsb_exists in X as (r & Hin & Ht). apply String.eqb_eq in Ht.
    exfalso. eapply H; eauto.
Qed.

Lemma user_stored_iff user_id rows :
  existsb (fun u => User.id u =? user_id) rows = true
  <-> exists u, In u rows /\ User.id u = user_id.
Proof.
  rewrite existsb_exists. split; intros (u & Hin & Hu); exists u;
    (split; [exact Hin|]); now apply Z.eqb_eq.
Qed.

(** ** Further properties: revocation leaves the rest alone *)

Lemma find_Forall2_same {A} (p : A -> bool) (l l' : list A) :
  Forall2 (fun r r' => r' = r \/ (p r = false /\ p r' = false)) l l' ->
  find p l' = find p l.
Proof.
  induction 1 as [|r r' l l' [->|[H1 H2]] _ IH]; simpl; [reflexivity| |].
  - destruct (p r); auto.
  - rewrite H1, H2. exact IH.
Qed.

Lemma find_Forall2_kept {A} (p q : A -> bool) (l l' : list A) (x : A) :
  Forall2 (fun r r' => r' = r \/ (p r' = false /\ q r = true)) l l' ->
  find p l = Some x -> q x = false -> find p l' = Some x.
Proof.
  induction 1 as [|r r' l l' [->|[H1 H2]] _ IH]; simpl; [discriminate| |].
  - destruct (p r); auto.
  - rewrite H1. destruct (p r).
    + intros [= <-] Hq. congruence.
    + exact IH.
Qed.

Lemma revoke_first_others token now rows :
  Forall2 (fun r r' => r' = r
                       \/ (RefreshToken.token r = token
                           /\ RefreshToken.token r' = token))
          rows (revoke_first token now rows).
Proof.
  induction rows as [|r rows IH]; simpl; [constructor|].
  destruct (String.eqb_spec (RefreshToken.token r) token) as [Ht|Ht].
  - constructor; [right; simpl; auto|].
    apply Forall2_refl. auto.
  - constructor; auto.
Qed.

Lemma revoke_refresh_token_found token db now :
  (exists r, In r (refresh_tokens db) /\ RefreshToken.token r = token) ->
  revoke_refresh_token token db now
  = (true, set_refresh_tokens (revoke_first token now (refresh_tokens db)) db).
Proof.
  intros (r & Hin & Ht). unfold revoke_refresh_token, Query.first.
  destruct (find _ _) eqn:F; [reflexivity|].
  apply (find_none _ _ F) in Hin. apply String.eqb_eq in Ht. congruence.
Qed.

Lemma revoke_refresh_token_missing token db now :
  (forall r, In r (refresh_tokens db) -> RefreshToken.token r <> token) ->
  revoke_refresh_token token db now = (false, db).
Proof.
  intros H. unfold revoke_refresh_token, Query.first.
  destruct (find _ _) as [r|] eqn:F; [|reflexivity].
  apply find_some in F as [Hin Ht]. apply String.eqb_eq in Ht.
  exfalso. eapply H; eauto.
Qed.

Lemma revoke_first_all_revoked token now rows :
  NoDup (map RefreshToken.token rows) ->
  forall r, In r (revoke_first token now rows) ->
    RefreshToken.token r = token -> RefreshToken.is_revoked r = true.
Proof.
  induction rows as [|a rows IH]; simpl; [tauto|].
  intros Hnd r. inversion Hnd as [|? ? Hnotin Hnd']; subst.
  destruct (String.eqb_spec (RefreshToken.token a) token) as [Ht|Ht].
  - intros [<-|Hin] Hr; [reflexivity|].
    exfalso. apply Hnotin. rewrite Ht, <- Hr. now apply in_map.
  - intros [<-|Hin] Hr; [contradiction|]. now apply IH.
Qed.

(** X4. [logout] answers 404 "Refresh token not found", and leaves the store
    as it was, exactly when no row carries the token string.  Otherwise it
    succeeds, also for a token that is expired or was revoked before, and
    it can be repeated: logging out again with the same string succeeds
    again.  With token strings unique, the string verifies at no time
    afterwards; the verification of every other string is unchanged. *)
Theorem logout_outcomes (refresh_token : string) (db : Session) (now : datetime) :
  ((forall r, In r (refresh_tokens db) -> RefreshToken.token r <> refresh_token) ->
   logout refresh_token db now
   = (Raise (HTTPException 404 "Refresh token not found"), db))
  /\ ((exists r, In r (refresh_tokens db) /\ RefreshToken.token r = refresh_token) ->
      fst (logout refresh_token db now)
      = Ok (schemas.MessageResponse "Successfully logged out")
      /\ (forall now2,
            fst (logout refresh_token (snd (logout refresh_token db now)) now2)
            = Ok (schemas.MessageResponse "Successfully logged out"))
      /\ (NoDup (map RefreshToken.token (refresh_tokens db)) ->
          forall now',
            verify_refresh_token refresh_token
              (snd (logout refresh_token db now)) now' = None))
  /\ (forall t' now', t' <> refresh_token ->
        verify_refresh_token t' (snd (logout refresh_token db now)) now'
        = verify_refresh_token t' db now')
  /\ users (snd (logout refresh_token db now)) = users db.
Proof.
  split; [|split; [|split]].
  - intros H. unfold logout.
    now rewrite (revoke_refresh_token_missing _ _ _ H).
  - intros Hex. unfold logout at 1 3 4.
    rewrite (revoke_refresh_token_found _ _ now Hex). simpl.
    split; [reflexivity|]. split.
    + intros now2. unfold logout.
      rewrite revoke_refresh_token_found; [reflexivity|].
      destruct Hex as (r & Hin & Ht). simpl.
      destruct (Forall2_In_l _ _ _ _
                  (revoke_first_same_keys refresh_token now (refresh_tokens db)) Hin)
        as (r' & Hin' & Hk).
      exists r'. split; [exact Hin'|]. destruct Hk as (_ & _ & -> & _). exact Ht.
    + intros Hnd now'. apply all_revoked_verify. intros r Hin Ht.
      simpl in Hin. eapply revoke_first_all_revoked; eauto.
  - intros t' now' Hne. unfold logout, revoke_refresh_token.
    destruct (Query.first _ _); simpl; [|reflexivity].
    unfold verify_refresh_token, Query.first. simpl.
    rewrite (find_Forall2_same (is_valid_for t' now') (refresh_tokens db)
               (revoke_first refresh_token now (refresh_tokens db)));
      [reflexivity|].
    eapply Forall2_impl; [|apply revoke_first_others].
    intros r r' [->|[H1 H2]]; [auto|right].
    unfold is_valid_for. rewrite H1, H2.
    apply not_eq_sym, String.eqb_neq in Hne. now rewrite Hne.
  - unfold logout, revoke_refresh_token.
    destruct (Query.first _ _); reflexivity.
Qed.

(** The theorem at the sample store: logging out with the revoked [t2]
    succeeds, with a string that is not stored it is answered 404. *)
Lemma logout_outcomes_witness :
  fst (logout "t2" Sample.db 60)
  = Ok (schemas.MessageResponse "Successfully logged out")
  /\ logout "nope" Sample.db 60
     = (Raise (HTTPException 404 "Refresh token not found"), Sample.db).
Proof.
  split.
  - apply (proj1 (proj2 (logout_outcomes "t2" Sample.db 60))).
    exists (Sample.tok 2 1 "t2" 100 true). simpl. auto.
  - apply (proj1 (logout_outcomes "nope" Sample.db 60)).
    intros r H. simpl in H.
    repeat (destruct H as [<-|H]; [simpl; discriminate|]). destruct H.
Defined.

Lemma revoke_loop_nothing_to_do user_id clock rows :
  (forall r, In r rows -> is_active_token_of user_id r = false) ->
  forall count, revoke_loop user_id clock rows count = (rows, count).
Proof.
  induction rows as [|r rows IH]; simpl; intros H count; [reflexivity|].
  rewrite (H r) by auto. rewrite IH by auto. reflexivity.
Qed.

Lemma revoke_all_user_tokens_none_active user_id db clock r :
  In r (refresh_tokens (snd (revoke_all_user_tokens user_id db clock))) ->
  is_active_token_of user_id r = false.
Proof.
  intros Hin.
  destruct (revoke_all_user_tokens_rows user_id db clock) as (HF & _).
  destruct (Forall2_In_r _ _ _ _ HF Hin) as (r0 & _ & HR).
  apply is_active_token_of_false.
  destruct HR as [(_ & _ & k & _ & ->)|[H ->]]; [right; reflexivity|exact H].
Qed.

Lemma revoke_all_user_tokens_nothing_to_do user_id db clock :
  (forall r, In r (refresh_tokens db) -> is_active_token_of user_id r = false) ->
  revoke_all_user_tokens user_id db clock = (0%nat, db).
Proof.
  intros H. unfold revoke_all_user_tokens.
  rewrite revoke_loop_nothing_to_do by exact H.
  destruct db; reflexivity.
Qed.

(** X5. [revoke_all_user_tokens] is idempotent: called again for the same
    user on the store it left, it returns 0 and changes nothing. *)
Theorem revoke_all_user_tokens_idempotent (user_id : Z) (db : Session)
    (clock clock' : nat -> datetime) :
  let db1 := snd (revoke_all_user_tokens user_id db clock) in
  revoke_all_user_tokens user_id db1 clock' = (0%nat, db1).
Proof.
  cbv zeta.
  pose proof (revoke_all_user_tokens_none_active user_id db clock) as Hnone.
  destruct (revoke_all_user_tokens user_id db clock) as [n db1]. simpl in *.
  now apply revoke_all_user_tokens_nothing_to_do.
Qed.

(** X6. [revoke_all_user_tokens] touches one user only: a token string
    that verifies as another user still verifies as that user afterwards,
    a string that does not verify still does not, and the [users] table
    is as it was. *)
Theorem revoke_all_user_tokens_other_users (user_id : Z) (db : Session)
    (clock : nat -> datetime) :
  let db' := snd (revoke_all_user_tokens user_id db clock) in
  (forall token now other,
      other <> user_id ->
      verify_refresh_token token db now = Some other ->
      verify_refresh_token token db' now = Some other)
  /\ (forall token now,
        verify_refresh_token token db now = None ->
        verify_refresh_token token db' now = None)
  /\ users db' = users db.
Proof.
  cbv zeta.
  destruct (revoke_all_user_tokens_rows user_id db clock) as (HF & Hu & _).
  split; [|split; [|exact Hu]].
  - intros token now other Hne V. unfold verify_refresh_token, Query.first in *.
    destruct (find _ (refresh_tokens db)) as [r|] eqn:F; [|discriminate].
    injection V as V.
    rewrite (find_Forall2_kept (is_valid_for token now)
               (fun r => RefreshToken.user_id r =? user_id)
               (refresh_tokens db)
               (refresh_tokens (snd (revoke_all_user_tokens user_id db clock)))
               r); auto.
    + congruence.
    + eapply Forall2_impl; [|exact HF].
      intros a b [(Ha & _ & k & _ & ->)|[_ ->]]; [right|auto].
      split; [|now apply Z.eqb_eq].
      unfold is_valid_for. simpl. now rewrite andb_false_r.
    + apply Z.eqb_neq. congruence.
  - intros token now V. apply dead_at_verify. apply dead_at_verify in V.
    intros r' Hin Ht. destruct (Forall2_In_r _ _ _ _ HF Hin) as (r & Hin0 & HR).
    apply revoked_by_loop_keys in HR as (_ & _ & Hkt & Hke & Hrev & _).
    destruct (V r Hin0) as [H|H]; [congruence|auto|right; congruence].
Qed.

(** The theorem at the sample store: revoking Alice's tokens leaves Bob's
    [t3] valid. *)
Lemma revoke_all_user_tokens_other_users_witness :
  verify_refresh_token "t3"
    (snd (revoke_all_user_tokens 1 Sample.db (fun _ => 60))) 70 = Some 2.
Proof.
  apply (proj1 (revoke_all_user_tokens_other_users 1 Sample.db (fun _ => 60))).
  - lia.
  - reflexivity.
Defined.

(** X7. [logout_all] reports the number of tokens it revoked in its
    message; repeated with the same bearer token at once, it reports 0
    and changes nothing more. *)
Theorem logout_all_twice (E : Env.t) (token : string) (db : Session)
    (now : datetime) (clock clock' : nat -> datetime) (u : User.t)
    (Huser : get_current_active_user E token db now = Ok u) :
  let n := List.length (Query.all (is_active_token_of (User.id u))
                                  (refresh_tokens db)) in
  let db1 := snd (logout_all E token db now clock) in
  fst (logout_all E token db now clock)
  = Ok (schemas.MessageResponse
          ("Successfully logged out from " ++ str_of_nat n ++ " device(s)")%string)
  /\ logout_all E token db1 now clock'
     = (Ok (schemas.MessageResponse "Successfully logged out from 0 device(s)"),
        db1)
  /\ (forall t now', verify_refresh_token t db1 now' <> Some (User.id u)).
Proof.
  cbv zeta.
  assert (Hlo : forall db0 ck,
            get_current_active_user E token db0 now = Ok u ->
            logout_all E token db0 now ck
            = (Ok (schemas.MessageResponse
                     ("Successfully logged out from "
                      ++ str_of_nat (fst (revoke_all_user_tokens (User.id u) db0 ck))
                      ++ " device(s)")%string),
               snd (revoke_all_user_tokens (User.id u) db0 ck))).
  { intros db0 ck H. unfold logout_all. rewrite H.
    destruct (revoke_all_user_tokens (User.id u) db0 ck). reflexivity. }
  rewrite (Hlo db clock Huser). simpl.
  split; [|split].
  - unfold revoke_all_user_tokens.
    pose proof (revoke_loop_spec (User.id u) clock (refresh_tokens db) 0) as Hn.
    destruct (revoke_loop (User.id u) clock (refresh_tokens db) 0) as [rows n].
    simpl in *. destruct Hn as [-> _]. reflexivity.
  - rewrite Hlo.
    + rewrite revoke_all_user_tokens_nothing_to_do; [reflexivity|].
      apply revoke_all_user_tokens_none_active.
    + apply get_current_active_user_Ok in Huser as [Hu Ha].
      apply get_current_active_user_Ok. split; [|exact Ha].
      now rewrite get_current_user_revoke_all.
  - intros t now'. apply revoke_all_user_tokens_not_valid.
Qed.

(** The theorem at the sample store: Alice has three active tokens. *)
Lemma logout_all_twice_witness :
  fst (logout_all Sample.env "k.alice" Sample.db 10 (fun _ => 10))
  = Ok (schemas.MessageResponse "Successfully logged out from 3 device(s)").
Proof.
  exact (proj1 (logout_all_twice Sample.env "k.alice" Sample.db 10
                  (fun _ => 10) (fun _ => 10) Sample.alice eq_refl)).
Defined.

(** ** Further properties: registration and login *)

Lemma find_first_witness {A} (p : A -> bool) (l : list A) :
  (exists x, In x l /\ p x = true) -> exists y, find p l = Some y.
Proof.
  intros (x & Hin & Hx). destruct (find p l) eqn:F; [eauto|].
  rewrite (find_none _ _ F x Hin) in Hx. discriminate.
Qed.

(** X8. [register] refuses a duplicate with 400 and leaves the store as it
    was: when the email is taken and the username is not, the detail is
    "Email already registered"; when the username is taken and the email
    is not, it is "Username already taken".  When neither is taken and
    the hasher returns, the request succeeds. *)
Theorem register_conflicts (E : Env.t) (user : schemas.UserCreate) (db : Session)
    (salt : string) (now : datetime) :
  ((exists u, In u (users db) /\ User.email u = schemas.email user) ->
   (forall u, In u (users db) -> User.username u <> schemas.username user) ->
   register E user db salt now
   = (Raise (HTTPException 400 "Email already registered"), db))
  /\ ((exists u, In u (users db) /\ User.username u = schemas.username user) ->
      (forall u, In u (users db) -> User.email u <> schemas.email user) ->
      register E user db salt now
      = (Raise (HTTPException 400 "Username already taken"), db))
  /\ ((exists u, In u (users db)
                 /\ (User.email u = schemas.email user
                     \/ User.username u = schemas.username user)) ->
      exists detail,
        register E user db salt now = (Raise (HTTPException 400 detail), db))
  /\ ((forall u, In u (users db) ->
         User.email u <> schemas.email user
         /\ User.username u <> schemas.username user) ->
      forall h, get_password_hash E salt (schemas.password user) = Ok h ->
      exists u, fst (register E user db salt now) = Ok (schemas.UserResponse u)).
Proof.
  set (p := fun u => (User.email u =? schemas.email user)%string
                     || (User.username u =? schemas.username user)%string).
  assert (Hp : forall u, p u = true <->
                 User.email u = schemas.email user
                 \/ User.username u = schemas.username user).
  { intros u. unfold p. rewrite orb_true_iff, !String.eqb_eq. tauto. }
  split; [|split; [|split]].
  - intros (u & Hin & He) Hno. unfold register. fold p.
    destruct (find_first_witness p (users db)) as (y & F).
    { exists u. split; [exact Hin|]. apply Hp. auto. }
    unfold Query.first. rewrite F. apply find_some in F as [Hy Py].
    apply Hp in Py as [Py|Py]; [|exfalso; eapply Hno; eauto].
    apply String.eqb_eq in Py. now rewrite Py.
  - intros (u & Hin & Hn) Hno. unfold register. fold p.
    destruct (find_first_witness p (users db)) as (y & F).
    { exists u. split; [exact Hin|]. apply Hp. auto. }
    unfold Query.first. rewrite F. apply find_some in F as [Hy Py].
    destruct (String.eqb_spec (User.email y) (schemas.email user)) as [He|He];
      [|reflexivity].
    exfalso. eapply Hno; eauto.
  - intros (u & Hin & Hu). unfold register. fold p.
    destruct (find_first_witness p (users db)) as (y & F).
    { exists u. split; [exact Hin|]. now apply Hp. }
    unfold Query.first. rewrite F.
    destruct (User.email y =? schemas.email user)%string; eauto.
  - intros Hno h Hh. unfold register. fold p.
    assert (F : find p (users db) = None).
    { destruct (find p (users db)) as [y|] eqn:F; [|reflexivity].
      apply find_some in F as [Hy Py]. apply Hp in Py.
      destruct (Hno y Hy). tauto. }
    unfold Query.first. rewrite F, Hh. simpl. eauto.
Qed.

(** The theorem at the sample store: Alice's email with a new username,
    and Alice's username with a new email. *)
Lemma register_conflicts_witness :
  register Sample.env (schemas.mkUserCreate "alice@example.com" "alice2" "pw")
           Sample.db "s" 10
  = (Raise (HTTPException 400 "Email already registered"), Sample.db)
  /\ register Sample.env (schemas.mkUserCreate "a2@example.com" "alice" "pw")
              Sample.db "s" 10
     = (Raise (HTTPException 400 "Username already taken"), Sample.db).
Proof.
  split.
  - apply (proj1 (register_conflicts Sample.env
                    (schemas.mkUserCreate "alice@example.com" "alice2" "pw")
                    Sample.db "s" 10)).
    + exists Sample.alice. simpl. auto.
    + intros u [<-|[<-|[]]]; simpl; discriminate.
  - apply (proj1 (proj2 (register_conflicts Sample.env
                           (schemas.mkUserCreate "a2@example.com" "alice" "pw")
                           Sample.db "s" 10))).
    + exists Sample.alice. simpl. auto.
    + intros u [<-|[<-|[]]]; simpl; discriminate.
Defined.

(** What a successful [register] did. *)
Lemma register_Ok E user db salt now resp db' :
  register E user db salt now = (Ok resp, db') ->
  exists h,
    get_password_hash E salt (schemas.password user) = Ok h
    /\ (forall v, In v (users db) ->
          User.email v <> schemas.email user
          /\ User.username v <> schemas.username user)
    /\ resp = schemas.UserResponse
                (User.mk (users_id_seq db) (schemas.email user)
                         (schemas.username user) h true false now None)
    /\ db' = mkSession
               (users db
                ++ [User.mk (users_id_seq db) (schemas.email user)
                            (schemas.username user) h true false now None])
               (refresh_tokens db) (users_id_seq db + 1)
               (refresh_tokens_id_seq db).
Proof.
  unfold register, Query.first.
  destruct (find _ (users db)) as [y|] eqn:F.
  - destruct (User.email y =? schemas.email user)%string; discriminate.
  - destruct (get_password_hash E salt (schemas.password user)) as [h|e];
      [|discriminate].
    intros [= <- <-]. exists h. repeat split; auto.
    + pose proof (find_none _ _ F v H) as Hn. simpl in Hn.
      apply orb_false_iff in Hn as [H1 _]. now apply String.eqb_neq.
    + pose proof (find_none _ _ F v H) as Hn. simpl in Hn.
      apply orb_false_iff in Hn as [_ H2]. now apply String.eqb_neq.
Qed.

(** X9. Register and log in.  A successful [register] appends one user,
    active and unverified, with the next id of the sequence and the hash
    the hasher returned, and touches no refresh token.  The new user can
    then authenticate with the registered password, by username provided
    no earlier user has that string as email, and by email provided no
    earlier user has that string as username (the lookup takes the first
    row that matches either column), whenever the hash verifies. *)
Theorem register_then_authenticate (E : Env.t) (user : schemas.UserCreate)
    (db : Session) (salt : string) (now : datetime)
    (resp : schemas.Response) (db' : Session)
    (Hok : register E user db salt now = (Ok resp, db')) :
  exists u,
    resp = schemas.UserResponse u
    /\ users db' = users db ++ [u]
    /\ refresh_tokens db' = refresh_tokens db
    /\ User.id u = users_id_seq db
    /\ User.email u = schemas.email user
    /\ User.username u = schemas.username user
    /\ User.is_active u = true
    /\ User.is_verified u = false
    /\ get_password_hash E salt (schemas.password user) = Ok (User.hashed_password u)
    /\ (verify_password E (schemas.password user) (User.hashed_password u) = Ok true ->
        (forall v, In v (users db) -> User.email v <> schemas.username user) ->
        authenticate_user E (schemas.username user) (schemas.password user) db'
        = Ok (Some u))
    /\ (verify_password E (schemas.password user) (User.hashed_password u) = Ok true ->
        (forall v, In v (users db) -> User.username v <> schemas.email user) ->
        authenticate_user E (schemas.email user) (schemas.password user) db'
        = Ok (Some u)).
Proof.
  apply register_Ok in Hok as (h & Hh & Hfree & -> & ->).
  eexists. split; [reflexivity|]. simpl.
  repeat (split; [reflexivity|]). split; [exact Hh|].
  split; intros Hv Hother; unfold authenticate_user, Query.first; simpl.
  - rewrite find_app_skip.
    + simpl. unfold has_identifier at 1. simpl. rewrite String.eqb_refl. simpl.
      rewrite Hv. reflexivity.
    + intros v Hin. unfold has_identifier. apply orb_false_iff.
      destruct (Hfree v Hin) as [_ Hn]. specialize (Hother v Hin).
      split; now apply String.eqb_neq.
  - rewrite find_app_skip.
    + simpl. unfold has_identifier at 1. simpl. rewrite String.eqb_refl.
      rewrite orb_true_r. simpl. rewrite Hv. reflexivity.
    + intros v Hin. unfold has_identifier. apply orb_false_iff.
      destruct (Hfree v Hin) as [He _]. specialize (Hother v Hin).
      split; now apply String.eqb_neq.
Qed.

(** The theorem at the sample store: Carol registers and logs in by
    username. *)
Lemma register_then_authenticate_witness :
  let carol := schemas.mkUserCreate "carol@example.com" "carol" "pw-carol" in
  exists u,
    authenticate_user Sample.env "carol" "pw-carol"
      (snd (register Sample.env carol Sample.db "s" 10)) = Ok (Some u)
    /\ User.id u = 3.
Proof.
  cbv zeta.
  destruct (register_then_authenticate Sample.env
              (schemas.mkUserCreate "carol@example.com" "carol" "pw-carol")
              Sample.db "s" 10 _ _ eq_refl)
    as (u & _ & _ & _ & Hid & _ & _ & _ & _ & Hh & Hlogin & _).
  exists u. split; [|exact Hid].
  apply Hlogin.
  - simpl in Hh. injection Hh as <-. reflexivity.
  - intros v [<-|[<-|[]]]; simpl; discriminate.
Defined.

Lemma find_none_iff {A} (p : A -> bool) (l : list A) :
  find p l = None <-> forall x, In x l -> p x = false.
Proof.
  split; [apply find_none|].
  intros H. destruct (find p l) as [y|] eqn:F; [|reflexivity].
  apply find_some in F as [Hin Hy]. rewrite (H y Hin) in Hy. discriminate.
Qed.

(** X10. Bad credentials look the same as long as verification
    returns.  Whether no user has the identifier as username or email, or
    [verify_password] returns [False] for the user found, both login
    endpoints answer with the same 401 "Incorrect username or password"
    and leave the store as it was.  A user whose stored hash makes
    [verify_password] raise is told apart from these: both endpoints then
    raise that exception, whatever the password, again with the store as
    it was. *)
Theorem login_bad_credentials (E : Env.t) (username password : string)
    (remember_me : bool) (request : Request) (db : Session)
    (urandom : string) (now : datetime) :
  let login := schemas.mkLoginRequest username password remember_me in
  let e401 := Raise (HTTPException 401 "Incorrect username or password") in
  ((forall u, In u (users db) ->
      User.username u <> username /\ User.email u <> username)
   \/ (exists u, Query.first (has_identifier username) (users db) = Some u
                 /\ verify_password E password (User.hashed_password u)
                    = Ok false) ->
   login_oauth2 E username password db now = (e401, db)
   /\ login_json E login request db urandom now = (e401, db))
  /\ (forall u e,
        Query.first (has_identifier username) (users db) = Some u ->
        verify_password E password (User.hashed_password u) = Raise e ->
        login_oauth2 E username password db now = (Raise e, db)
        /\ login_json E login request db urandom now = (Raise e, db)).
Proof.
  cbv zeta. split.
  - intros Hbad.
    assert (Ha : authenticate_user E username password db = Ok None).
    { unfold authenticate_user. destruct Hbad as [Hno|(u & F & V)].
      - assert (F : Query.first (has_identifier username) (users db) = None).
        { apply find_none_iff. intros u Hin. destruct (Hno u Hin) as [H1 H2].
          unfold has_identifier. apply orb_false_iff.
          split; now apply String.eqb_neq. }
        now rewrite F.
      - rewrite F, V. reflexivity. }
    unfold login_oauth2, login_json. simpl. now rewrite Ha.
  - intros u e F V.
    assert (Ha : authenticate_user E username password db = Raise e).
    { unfold authenticate_user. rewrite F, V. reflexivity. }
    unfold login_oauth2, login_json. simpl. now rewrite Ha.
Qed.

(** The theorem at the sample store: an unknown user and a wrong
    password get the same answer; on a store where Xavier's hash is not a
    bcrypt hash, a login as Xavier raises [UnknownHashError]. *)
Lemma login_bad_credentials_witness :
  let db :=
    mkSession [User.mk 1 "x@example.com" "xavier" "not-a-hash" true false 0 None]
              [] 2 1 in
  login_oauth2 Sample.env "mallory" "x" Sample.db 10
  = login_oauth2 Sample.env "alice" "wrong" Sample.db 10
  /\ login_oauth2 Sample.env "xavier" "pw" db 10 = (Raise UnknownHashError, db).
Proof.
  cbv zeta.
  assert (H1 : forall u, In u (users Sample.db) ->
                 User.username u <> "mallory" /\ User.email u <> "mallory").
  { intros u [<-|[<-|[]]]; split; discriminate. }
  assert (H2 : exists u,
             Query.first (has_identifier "alice") (users Sample.db) = Some u
             /\ verify_password Sample.env "wrong" (User.hashed_password u)
                = Ok false).
  { exists Sample.alice. split; reflexivity. }
  split.
  - rewrite (proj1 (proj1 (login_bad_credentials Sample.env "mallory" "x" false
                             (mkRequest None None) Sample.db "fresh" 10)
                      (or_introl H1))).
    rewrite (proj1 (proj1 (login_bad_credentials Sample.env "alice" "wrong" false
                             (mkRequest None None) Sample.db "fresh" 10)
                      (or_intror H2))).
    reflexivity.
  - refine (proj1 (proj2 (login_bad_credentials Sample.env "xavier" "pw" false
                            (mkRequest None None)
                            (mkSession
                               [User.mk 1 "x@example.com" "xavier" "not-a-hash"
                                        true false 0 None] [] 2 1)
                            "fresh" 10)
                     (User.mk 1 "x@example.com" "xavier" "not-a-hash" true false 0 None)
                     UnknownHashError eq_refl eq_refl)).
Defined.

Lemma create_refresh_token_valid settings user_id db ua ip token now t db' now' :
  create_refresh_token settings user_id db ua ip token now = Ok (t, db') ->
  now' < now + timedelta_days (Settings.REFRESH_TOKEN_EXPIRE_DAYS settings) ->
  t = token /\ users db' = users db
  /\ verify_refresh_token token db' now' = Some user_id
  /\ exists r, In r (refresh_tokens db') /\ RefreshToken.token r = token.
Proof.
  intros Hok Hlt. apply create_refresh_token_inv in Hok as (-> & X & _ & ->).
  split; [reflexivity|]. split; [reflexivity|].
  unfold verify_refresh_token, Query.first. simpl. split.
  - rewrite find_app_skip.
    + simpl. unfold is_valid_for. simpl. rewrite String.eqb_refl.
      apply Z.ltb_lt in Hlt. rewrite Hlt. reflexivity.
    + intros x Hin. unfold is_valid_for.
      pose proof (proj1 (token_not_stored_iff _ _) X x Hin) as Hne.
      apply String.eqb_neq in Hne. now rewrite Hne.
  - eexists. split; [apply in_or_app; right; left; reflexivity|reflexivity].
Qed.

(** What a successful [login_json] did. *)
Lemma login_json_Ok E login_data request db urandom now resp db' :
  login_json E login_data request db urandom now = (Ok resp, db') ->
  exists u,
    authenticate_user E (schemas.login_username login_data)
                      (schemas.login_password login_data) db = Ok (Some u)
    /\ User.is_active u = true
    /\ ((schemas.remember_me login_data = false
         /\ resp = schemas.TokenResponse
                     (create_access_token E [("sub", VStr (User.username u))] None now)
                     None "bearer" (expires_in E)
         /\ db' = db)
        \/ (schemas.remember_me login_data = true
            /\ resp = schemas.TokenResponse
                        (create_access_token E [("sub", VStr (User.username u))]
                                             None now)
                        (Some urandom) "bearer" (expires_in E)
            /\ create_refresh_token (Env.settings E) (User.id u) db
                 (header_user_agent request) (client_host request) urandom now
               = Ok (urandom, db'))).
Proof.
  unfold login_json.
  destruct (authenticate_user E _ _ db) as [[u|]|e]; try discriminate.
  destruct (User.is_active u) eqn:A; simpl; [|discriminate].
  destruct (schemas.remember_me login_data).
  - destruct (create_refresh_token _ _ _ _ _ _ _) as [[t db1]|e] eqn:C;
      [|discriminate].
    intros [= <- <-]. exists u. split; [reflexivity|]. split; [exact A|]. right.
    pose proof (create_refresh_token_Ok _ _ _ _ _ _ _ _ _ C) as (_ & _ & _ & _ & _ & ->).
    split; [reflexivity|]. split; [reflexivity|exact C].
  - intros [= <- <-]. exists u. split; [reflexivity|]. split; [exact A|]. left.
    split; [reflexivity|]. split; reflexivity.
Qed.

(** X11. [login_json] hands out a refresh token only to an authenticated,
    active user who asked to be remembered.  Without [remember_me] the
    response has no refresh token and the store is as it was.  With it,
    the refresh token of the response is the drawn string, and it
    verifies as that user at every time before its expiry. *)
Theorem login_json_refresh_token (E : Env.t) (login_data : schemas.LoginRequest)
    (request : Request) (db : Session) (urandom : string) (now : datetime)
    (access_token : string) (refresh_token : option string)
    (token_type : string) (expires : Z) (db' : Session)
    (Hok : login_json E login_data request db urandom now
           = (Ok (schemas.TokenResponse access_token refresh_token token_type expires),
              db')) :
  exists u,
    authenticate_user E (schemas.login_username login_data)
                      (schemas.login_password login_data) db = Ok (Some u)
    /\ User.is_active u = true
    /\ token_type = "bearer"
    /\ expires = Settings.ACCESS_TOKEN_EXPIRE_MINUTES (Env.settings E) * 60
    /\ (schemas.remember_me login_data = false -> refresh_token = None /\ db' = db)
    /\ (schemas.remember_me login_data = true ->
        refresh_token = Some urandom
        /\ users db' = users db
        /\ forall now',
             now' < now + timedelta_days
                            (Settings.REFRESH_TOKEN_EXPIRE_DAYS (Env.settings E)) ->
             verify_refresh_token urandom db' now' = Some (User.id u)).
Proof.
  apply login_json_Ok in Hok
    as (u & Ha & Hact & [(Hrm & Hresp & ->)|(Hrm & Hresp & Hc)]);
    injection Hresp as -> -> -> ->; exists u;
    (split; [exact Ha|]); (split; [exact Hact|]);
    (split; [reflexivity|]); (split; [reflexivity|]).
  - split; [auto|]. rewrite Hrm. discriminate.
  - split; [rewrite Hrm; discriminate|]. intros _.
    split; [reflexivity|]. split.
    + now apply create_refresh_token_inv in Hc as (_ & _ & _ & ->).
    + intros now' Hlt.
      now destruct (create_refresh_token_valid _ _ _ _ _ _ _ _ _ now' Hc Hlt)
        as (_ & _ & ? & _).
Qed.

(** The theorem at the sample store: Alice logs in and asks to be
    remembered. *)
Lemma login_json_refresh_token_witness :
  exists u,
    User.id u = 1
    /\ verify_refresh_token "fresh"
         (snd (login_json Sample.env
                 (schemas.mkLoginRequest "alice" "pw-alice" true)
                 (mkRequest None None) Sample.db "fresh" 10)) 11
       = Some (User.id u).
Proof.
  destruct (login_json_refresh_token Sample.env
              (schemas.mkLoginRequest "alice" "pw-alice" true)
              (mkRequest None None) Sample.db "fresh" 10 _ _ _ _ _ eq_refl)
    as (u & Ha & _ & _ & _ & _ & Hrm).
  exists u. split.
  - simpl in Ha. injection Ha as <-. reflexivity.
  - destruct (Hrm eq_refl) as (_ & _ & Hv). apply Hv. simpl. lia.
Defined.

(** ** Further properties: refreshing *)

(** In a store that satisfies its constraints, the owner of a valid
    refresh token is stored, once. *)
Lemma verified_owner_stored db token now uid :
  well_formed db ->
  verify_refresh_token token db now = Some uid ->
  exists u, Query.first (fun u => User.id u =? uid) (users db) = Some u
            /\ In u (users db) /\ User.id u = uid
            /\ forall v, In v (users db) -> User.id v = uid -> v = u.
Proof.
  intros Hwf V. apply verify_refresh_token_Some in V as (r & Hin & _ & Hu).
  destruct (wf_foreign_key _ Hwf r Hin) as (u0 & Hin0 & Hid0).
  destruct (find_first_witness (fun u => User.id u =? uid) (users db)) as (u & F).
  { exists u0. split; [exact Hin0|]. apply Z.eqb_eq. congruence. }
  exists u. pose proof (find_some _ _ F) as [Hinu Hidu]. apply Z.eqb_eq in Hidu.
  repeat split; auto.
  intros v Hv Hidv.
  eapply NoDup_map_inj; [apply (wf_user_ids _ Hwf)|auto|auto|congruence].
Qed.

(** X12. The outcomes of [refresh_access_token].  It never changes the
    store.  A token string that does not verify is answered 401.  In a
    store that satisfies its constraints, a string that verifies as a
    user with a non-zero id is answered 403 when that user is inactive
    and otherwise with a new access token for that user's username and
    no refresh token; the 404 "User not found" cannot occur, because
    deleting a user deletes the user's tokens. *)
Theorem refresh_access_token_outcomes (E : Env.t) (refresh_token : string)
    (db : Session) (now : datetime) (Hwf : well_formed db) :
  snd (refresh_access_token E refresh_token db now) = db
  /\ (verify_refresh_token refresh_token db now = None ->
      fst (refresh_access_token E refresh_token db now)
      = Raise (HTTPException 401 "Invalid or expired refresh token"))
  /\ (forall uid,
        verify_refresh_token refresh_token db now = Some uid -> uid <> 0 ->
        exists u,
          In u (users db) /\ User.id u = uid
          /\ fst (refresh_access_token E refresh_token db now)
             = if User.is_active u
               then Ok (schemas.TokenResponse
                          (create_access_token E
                             [("sub", VStr (User.username u))] None now)
                          None "bearer"
                          (Settings.ACCESS_TOKEN_EXPIRE_MINUTES (Env.settings E) * 60))
               else Raise (HTTPException 403 "Account is inactive"))
  /\ fst (refresh_access_token E refresh_token db now)
     <> Raise (HTTPException 404 "User not found").
Proof.
  split; [apply refresh_access_token_unchanged|].
  split; [intros V; now rewrite refresh_access_token_invalid|].
  split.
  - intros uid V Hnz.
    destruct (verified_owner_stored db _ _ _ Hwf V) as (u & F & Hin & Hid & _).
    exists u. split; [exact Hin|]. split; [exact Hid|].
    unfold refresh_access_token. rewrite V.
    apply Z.eqb_neq in Hnz. rewrite Hnz, F.
    destruct (User.is_active u); reflexivity.
  - unfold refresh_access_token.
    destruct (verify_refresh_token refresh_token db now) as [uid|] eqn:V;
      [|discriminate].
    destruct (uid =? 0); [discriminate|].
    destruct (verified_owner_stored db _ _ _ Hwf V) as (u & F & _).
    rewrite F. destruct (User.is_active u); discriminate.
Qed.

(** The theorem at the sample store: Bob's token is valid but Bob is
    inactive; Alice's gives her a new access token. *)
Lemma refresh_access_token_outcomes_witness :
  fst (refresh_access_token Sample.env "t3" Sample.db 10)
  = Raise (HTTPException 403 "Account is inactive")
  /\ fst (refresh_access_token Sample.env "t1" Sample.db 10)
     = Ok (schemas.TokenResponse "k.alice" None "bearer" 1800).
Proof.
  split.
  - destruct (proj1 (proj2 (proj2 (refresh_access_token_outcomes Sample.env "t3"
                Sample.db 10 sample_db_well_formed))) 2 eq_refl)
      as (u & Hin & Hid & ->); [lia|].
    destruct Hin as [<-|[<-|[]]]; [discriminate Hid|reflexivity].
  - destruct (proj1 (proj2 (proj2 (refresh_access_token_outcomes Sample.env "t1"
                Sample.db 10 sample_db_well_formed))) 1 eq_refl)
      as (u & Hin & Hid & ->); [lia|].
    destruct Hin as [<-|[<-|[]]]; [reflexivity|discriminate Hid].
Defined.

(** X13. Log in, refresh, log out.  In a store that satisfies its
    constraints, where no user has the id 0, a refresh token handed out
    by [login_json] is accepted by [refresh_access_token] at every time
    before its expiry; [logout] with it succeeds; and from then on
    [refresh_access_token] answers it with 401 at every time. *)
Theorem login_refresh_logout (E : Env.t) (login_data : schemas.LoginRequest)
    (request : Request) (db : Session) (urandom : string) (now : datetime)
    (access_token token_type : string) (expires : Z) (t : string) (db1 : Session)
    (Hwf : well_formed db)
    (Hids : forall u, In u (users db) -> User.id u <> 0)
    (Hlogin : login_json E login_data request db urandom now
              = (Ok (schemas.TokenResponse access_token (Some t) token_type expires),
                 db1)) :
  (forall now1,
     now1 < now + timedelta_days
                    (Settings.REFRESH_TOKEN_EXPIRE_DAYS (Env.settings E)) ->
     exists access_token',
       refresh_access_token E t db1 now1
       = (Ok (schemas.TokenResponse access_token' None "bearer"
                (Settings.ACCESS_TOKEN_EXPIRE_MINUTES (Env.settings E) * 60)),
          db1))
  /\ (forall now2,
        fst (logout t db1 now2)
        = Ok (schemas.MessageResponse "Successfully logged out")
        /\ forall now3,
             refresh_access_token E t (snd (logout t db1 now2)) now3
             = (Raise (HTTPException 401 "Invalid or expired refresh token"),
                snd (logout t db1 now2))).
Proof.
  pose proof (login_json_transition (fun _ => False) E login_data request db
                urandom now) as Htr.
  rewrite Hlogin in Htr. simpl in Htr.
  pose proof (transition_well_formed _ _ _ _ Htr Hwf) as Hwf1.
  apply login_json_Ok in Hlogin
    as (u & Ha & Hact & [(_ & Hresp & _)|(_ & Hresp & Hc)]);
    [discriminate Hresp|].
  injection Hresp as _ -> _ _.
  assert (Hu : In u (users db)).
  { revert Ha. unfold authenticate_user.
    destruct (Query.first _ _) as [user|] eqn:F; [|discriminate].
    destruct (verify_password E _ _) as [[|]|e]; simpl; try discriminate.
    intros [= <-]. now apply find_some in F. }
  split.
  - intros now1 Hlt.
    destruct (create_refresh_token_valid _ _ _ _ _ _ _ _ _ now1 Hc Hlt)
      as (_ & Husers & V & _).
    destruct (verified_owner_stored db1 _ _ _ Hwf1 V) as (u' & F & _ & _ & Huniq).
    assert (u = u') by (apply Huniq; [now rewrite Husers|reflexivity]).
    subst u'. eexists. unfold refresh_access_token. rewrite V.
    pose proof (Hids u Hu) as Hnz. apply Z.eqb_neq in Hnz.
    rewrite Hnz, F, Hact. reflexivity.
  - intros now2.
    assert (Hex : exists r, In r (refresh_tokens db1)
                            /\ RefreshToken.token r = urandom).
    { pose proof (create_refresh_token_Ok _ _ _ _ _ _ _ _ _ Hc)
        as (r & Hrows & _ & _ & Ht & _).
      exists r. split; [|exact Ht]. rewrite Hrows. apply in_or_app. simpl. auto. }
    unfold logout. rewrite (revoke_refresh_token_found _ _ now2 Hex). simpl.
    split; [reflexivity|]. intros now3.
    apply refresh_access_token_invalid, all_revoked_verify.
    intros r Hin Ht. simpl in Hin.
    eapply revoke_first_all_revoked; eauto. apply (wf_tokens _ Hwf1).
Qed.

(** The theorem at the sample store: Alice logs in at 10, refreshes at 20
    and logs out at 30. *)
Lemma login_refresh_logout_witness :
  let db1 := snd (login_json Sample.env
                    (schemas.mkLoginRequest "alice" "pw-alice" true)
                    (mkRequest None None) Sample.db "fresh" 10) in
  (exists access_token',
     refresh_access_token Sample.env "fresh" db1 20
     = (Ok (schemas.TokenResponse access_token' None "bearer" 1800), db1))
  /\ fst (refresh_access_token Sample.env "fresh" (snd (logout "fresh" db1 30)) 40)
     = Raise (HTTPException 401 "Invalid or expired refresh token").
Proof.
  cbv zeta.
  assert (Hids : forall u, In u (users Sample.db) -> User.id u <> 0).
  { intros u [<-|[<-|[]]]; simpl; lia. }
  destruct (login_refresh_logout Sample.env
              (schemas.mkLoginRequest "alice" "pw-alice" true)
              (mkRequest None None) Sample.db "fresh" 10 _ _ _ "fresh" _
              sample_db_well_formed Hids eq_refl) as [Hrefresh Hlogout].
  split.
  - apply Hrefresh. simpl. lia.
  - destruct (Hlogout 30) as [_ H]. now rewrite H.
Defined.

(** ** Further properties: accounts *)

Lemma revoke_all_user_tokens_keeps_others user_id db clock r :
  In r (refresh_tokens db) -> RefreshToken.user_id r <> user_id ->
  In r (refresh_tokens (snd (revoke_all_user_tokens user_id db clock))).
Proof.
  intros Hin Hne.
  destruct (revoke_all_user_tokens_rows user_id db clock) as (HF & _).
  destruct (Forall2_In_l _ _ _ _ HF Hin) as (r' & Hin' & HR).
  destruct HR as [(Hu & _)|[_ ->]]; [contradiction|exact Hin'].
Qed.

(** X14. The cascade of [delete_account].  After a successful call, in a
    store that satisfied its constraints: the caller's user row is gone
    and every other user row is as it was; no refresh-token row of the
    caller is left, so none of the caller's token strings is stored or
    verifies any more; and every refresh-token row of another user is
    exactly as it was. *)
Theorem delete_account_cascade (E : Env.t) (token : string) (db : Session)
    (now : datetime) (clock : nat -> datetime)
    (resp : schemas.Response) (db' : Session)
    (Hwf : well_formed db)
    (Hok : delete_account E token db now clock = (Ok resp, db')) :
  exists u,
    get_current_active_user E token db now = Ok u
    /\ resp = schemas.MessageResponse "Account deleted successfully"
    /\ (forall v, In v (users db') <-> In v (users db) /\ v <> u)
    /\ (forall r, In r (refresh_tokens db') -> RefreshToken.user_id r <> User.id u)
    /\ (forall r, In r (refresh_tokens db) ->
          RefreshToken.user_id r = User.id u ->
          (forall r', In r' (refresh_tokens db') ->
             RefreshToken.token r' <> RefreshToken.token r)
          /\ forall now', verify_refresh_token (RefreshToken.token r) db' now' = None)
    /\ (forall r, In r (refresh_tokens db) ->
          RefreshToken.user_id r <> User.id u -> In r (refresh_tokens db'))
    /\ well_formed db'.
Proof.
  pose proof (delete_account_transition (fun _ => False) (fun _ => False)
                E token db now clock) as Htr.
  rewrite Hok in Htr. simpl in Htr.
  pose proof (transition_well_formed _ _ _ _ Htr Hwf) as Hwf'.
  assert (Hresp : resp = schemas.MessageResponse "Account deleted successfully").
  { revert Hok. unfold delete_account.
    destruct (get_current_active_user E token db now); [|discriminate].
    destruct (revoke_all_user_tokens _ _ _). now intros [= <- _]. }
  apply delete_account_Ok in Hok as (u & Hu & Ha & ->).
  pose proof (get_current_user_In _ _ _ _ _ Hu) as Hin_u.
  destruct (revoke_all_user_tokens_rows (User.id u) db clock) as (HF & Husers & _).
  exists u. split; [now apply get_current_active_user_Ok|].
  split; [exact Hresp|].
  assert (Hgone : forall r', In r' (refresh_tokens
                     (delete_user (User.id u)
                        (snd (revoke_all_user_tokens (User.id u) db clock)))) ->
                  RefreshToken.user_id r' <> User.id u
                  /\ exists r0, In r0 (refresh_tokens db) /\ same_keys r0 r').
  { intros r' Hin'. unfold delete_user in Hin'. simpl in Hin'.
    apply filter_In in Hin' as [Hin' Hne].
    apply negb_true_iff, Z.eqb_neq in Hne. split; [exact Hne|].
    destruct (Forall2_In_r _ _ _ _ HF Hin') as (r0 & Hin0 & HR).
    exists r0. split; [exact Hin0|]. eapply revoked_by_loop_same_keys; eauto. }
  split; [|split; [|split; [|split; [|exact Hwf']]]].
  - intros v. unfold delete_user. simpl. rewrite Husers, filter_In.
    rewrite negb_true_iff, Z.eqb_neq. split.
    + intros [Hv Hne]. split; [exact Hv|]. congruence.
    + intros [Hv Hne]. split; [exact Hv|]. intros Hid. apply Hne.
      eapply NoDup_map_inj; [apply (wf_user_ids _ Hwf)|auto|auto|exact Hid].
  - intros r' Hin'. now destruct (Hgone r' Hin').
  - intros r Hin Hr.
    assert (Hno : forall r', In r' (refresh_tokens
                      (delete_user (User.id u)
                         (snd (revoke_all_user_tokens (User.id u) db clock)))) ->
                    RefreshToken.token r' <> RefreshToken.token r).
    { intros r' Hin' Ht. destruct (Hgone r' Hin') as (Hne & r0 & Hin0 & Hk).
      destruct Hk as (_ & Hku & Hkt & _).
      assert (r0 = r)
        by (eapply NoDup_map_inj; [apply (wf_tokens _ Hwf)|auto|auto|congruence]).
      subst r0. congruence. }
    split; [exact Hno|].
    intros now'. apply all_revoked_verify. intros r' Hin' Ht.
    exfalso. eapply Hno; eauto.
  - intros r Hin Hne. unfold delete_user. simpl. apply filter_In. split.
    + now apply revoke_all_user_tokens_keeps_others.
    + now apply negb_true_iff, Z.eqb_neq.
Qed.

(** The theorem at the sample store: Alice deletes her account; her
    token [t1] is gone, Bob's [t3] is valid as before. *)
Lemma delete_account_cascade_witness :
  let db' := snd (delete_account Sample.env "k.alice" Sample.db 10 (fun _ => 10)) in
  verify_refresh_token "t1" db' 20 = None
  /\ In (Sample.tok 3 2 "t3" 100 false) (refresh_tokens db').
Proof.
  cbv zeta.
  destruct (delete_account_cascade Sample.env "k.alice" Sample.db 10 (fun _ => 10)
              _ _ sample_db_well_formed eq_refl)
    as (u & Hu & _ & _ & _ & Hown & Hother & _).
  injection Hu as <-. split.
  - apply (Hown (Sample.tok 1 1 "t1" 100 false)); simpl; auto.
  - apply Hother; simpl; [auto 10|lia].
Defined.

(** ** Further properties: every endpoint *)

Lemma transition_sequences P U db db' :
  transition P U db db' ->
  users_id_seq db <= users_id_seq db'
  /\ refresh_tokens_id_seq db <= refresh_tokens_id_seq db'.
Proof.
  induction 1 as [db db' HU HT Hs1 Hs2| | | | |db e0|]; simpl; try lia.
  destruct e0; simpl; lia.
Qed.

(** X16. Every endpoint keeps the constraints that [app/models.py]
    declares: after any call, primary keys are still unique and below
    their sequences, emails, usernames and token strings are still
    unique, and every refresh token still belongs to a stored user. *)
Theorem handle_keeps_constraints (E : Env.t) (c : Call) (i : Inputs) (db : Session)
    (Hwf : well_formed db) :
  well_formed (snd (handle E c i db))
  /\ users_id_seq db <= users_id_seq (snd (handle E c i db))
  /\ refresh_tokens_id_seq db <= refresh_tokens_id_seq (snd (handle E c i db)).
Proof.
  split.
  - eapply transition_well_formed; [apply handle_transition|exact Hwf].
  - eapply transition_sequences, handle_transition.
Qed.

(** The theorem at the sample store, for a registration. *)
Lemma handle_keeps_constraints_witness :
  well_formed
    (snd (handle Sample.env
            (POST_register (schemas.mkUserCreate "carol@example.com" "carol" "pw"))
            (Sample.inputs 10) Sample.db)).
Proof.
  exact (proj1 (handle_keeps_constraints Sample.env _ (Sample.inputs 10) Sample.db
                  sample_db_well_formed)).
Defined.

Lemma change_password_tokens E pw token db salt now clock :
  Forall2 same_keys (refresh_tokens db)
          (refresh_tokens (snd (change_password E pw token db salt now clock))).
Proof.
  unfold change_password.
  destruct (get_current_active_user E token db now) as [u|e];
    [|apply Forall2_refl, same_keys_refl].
  destruct (verify_password E _ _) as [[|]|e];
    try apply Forall2_refl, same_keys_refl.
  destruct (get_password_hash E _ _) as [h|e];
    [|apply Forall2_refl, same_keys_refl].
  pose proof (revoke_all_user_tokens_same_keys (User.id u)
                (set_users (update_hashed_password (User.id u) h now (users db)) db)
                clock) as H.
  destruct (revoke_all_user_tokens _ _ _). exact H.
Qed.

(** X17. Refresh-token rows are only ever deleted with their owner.  A
    stored row is still stored after any call, with the same id, owner,
    token string and expiry, and still revoked if it was; unless the call
    is a [delete_account] by the owner of the row. *)
Theorem refresh_token_rows_persist (E : Env.t) (c : Call) (i : Inputs)
    (db : Session) (r : RefreshToken.t)
    (Hin : In r (refresh_tokens db)) :
  (exists r', In r' (refresh_tokens (snd (handle E c i db))) /\ same_keys r r')
  \/ (exists bearer u,
        c = DELETE_delete_account bearer
        /\ get_current_active_user E bearer db (now i) = Ok u
        /\ RefreshToken.user_id r = User.id u).
Proof.
  assert (Hsame : forall rows',
            Forall2 same_keys (refresh_tokens db) rows' ->
            exists r', In r' rows' /\ same_keys r r').
  { intros rows' HF. exact (Forall2_In_l _ _ _ _ HF Hin). }
  assert (Hrefl : exists r', In r' (refresh_tokens db) /\ same_keys r r').
  { exists r. split; [exact Hin|apply same_keys_refl]. }
  destruct c; simpl.
  - left. unfold register. destruct (Query.first _ _) as [y|].
    + destruct (User.email y =? schemas.email user)%string; exact Hrefl.
    + destruct (get_password_hash E _ _); exact Hrefl.
  - left. now rewrite login_oauth2_unchanged.
  - left. unfold login_json.
    destruct (authenticate_user E _ _ db) as [[u|]|e']; try exact Hrefl.
    destruct (User.is_active u); simpl; [|exact Hrefl].
    destruct (schemas.remember_me login_data); [|exact Hrefl].
    destruct (create_refresh_token _ _ _ _ _ _ _) as [[t db']|e'] eqn:C;
      [|destruct e'; exact Hrefl].
    apply create_refresh_token_Ok in C as (r1 & Hrows & _). simpl.
    rewrite Hrows.
    exists r. split; [apply in_or_app; auto|apply same_keys_refl].
  - left. now rewrite refresh_access_token_unchanged.
  - left. unfold logout.
    unfold revoke_refresh_token. destruct (Query.first _ _); simpl.
    + apply Hsame, revoke_first_same_keys.
    + exact Hrefl.
  - left. unfold logout_all.
    destruct (get_current_active_user E bearer db (now i)) as [u|e];
      [|exact Hrefl].
    pose proof (revoke_all_user_tokens_same_keys (User.id u) db (clock i)) as H.
    destruct (revoke_all_user_tokens _ _ _). simpl in *. now apply Hsame.
  - left. now rewrite get_current_user_info_unchanged.
  - left. apply Hsame, change_password_tokens.
  - unfold delete_account.
    destruct (get_current_active_user E bearer db (now i)) as [u|e] eqn:G;
      [|left; exact Hrefl].
    destruct (Z.eq_dec (RefreshToken.user_id r) (User.id u)) as [Hu|Hu].
    + right. exists bearer, u. auto.
    + left.
      pose proof (revoke_all_user_tokens_keeps_others (User.id u) db (clock i) r
                    Hin Hu) as H.
      destruct (revoke_all_user_tokens _ _ _) as [n db1]. simpl in *.
      exists r. split; [|apply same_keys_refl].
      apply filter_In. split; [exact H|].
      now apply negb_true_iff, Z.eqb_neq.
Qed.

(** The theorem at the sample store: Bob's row survives Alice's
    deletion of her account. *)
Lemma refresh_token_rows_persist_witness :
  exists r',
    In r' (refresh_tokens
             (snd (handle Sample.env (DELETE_delete_account "k.alice")
                     (Sample.inputs 10) Sample.db)))
    /\ same_keys (Sample.tok 3 2 "t3" 100 false) r'.
Proof.
  destruct (refresh_token_rows_persist Sample.env (DELETE_delete_account "k.alice")
              (Sample.inputs 10) Sample.db (Sample.tok 3 2 "t3" 100 false))
    as [H|(bearer & u & Hc & Hu & Hr)].
  - simpl. auto.
  - exact H.
  - injection Hc as <-. injection Hu as <-. discriminate Hr.
Defined.

(** ** Further properties: access tokens and the current user *)

(** X19. Whom a bearer token stands for.  When [get_current_active_user]
    accepts a token, the token decodes under the configured key and
    algorithm, its [sub] claim is a string, and the user returned is a
    stored, active user whose username is that string.  The refresh-token
    table plays no part, so no logout changes the answer. *)
Theorem current_user_is_subject (E : Env.t) (token : string) (db : Session)
    (now : datetime) (u : User.t)
    (Hok : get_current_active_user E token db now = Ok u) :
  In u (users db)
  /\ User.is_active u = true
  /\ (exists payload,
        decode_access_token E token now = Some payload
        /\ dict_get "sub" payload = Some (VStr (User.username u)))
  /\ (forall rows,
        get_current_active_user E token (set_refresh_tokens rows db) now = Ok u)
  /\ (forall refresh_token now',
        get_current_active_user E token
          (snd (logout refresh_token db now')) now = Ok u).
Proof.
  pose proof Hok as Hok'.
  apply get_current_active_user_Ok in Hok as [Hu Ha].
  pose proof (get_current_user_Ok _ _ _ _ _ Hu) as (payload & v & Hd & Hs & F).
  pose proof (find_some _ _ F) as [Hin Hv].
  split; [exact Hin|]. split; [exact Ha|]. split; [|split].
  - exists payload. split; [exact Hd|].
    destruct v; simpl in Hv; try discriminate.
    apply String.eqb_eq in Hv. now subst.
  - intros rows. exact Hok'.
  - intros refresh_token now'.
    unfold logout, revoke_refresh_token.
    destruct (Query.first _ (refresh_tokens db)); exact Hok'.
Qed.

(** The theorem at the sample store: Alice's token. *)
Lemma current_user_is_subject_witness :
  exists payload,
    decode_access_token Sample.env "k.alice" 10 = Some payload
    /\ dict_get "sub" payload = Some (VStr "alice").
Proof.
  exact (proj1 (proj2 (proj2 (current_user_is_subject Sample.env "k.alice"
                                Sample.db 10 Sample.alice eq_refl)))).
Defined.

(** X20. What [change_password] changes.  A successful call, in a store
    that satisfies its constraints, gives the caller's row the new hash
    and an update time and nothing else: username, email, id and flags
    are kept, every other user row and every refresh-token row of another
    user are exactly as before.  Logging in by username with the new
    password then reaches the caller, whenever the new hash verifies and
    no other user has the caller's username as email: the caller's row is
    then the only one the login can meet, in whatever order the store
    yields its rows.  A current password that does not verify is answered
    400 with the store as it was. *)
Theorem change_password_effects (E : Env.t)
    (password_data : schemas.PasswordChangeRequest) (token : string)
    (db : Session) (salt : string) (now : datetime) (clock : nat -> datetime)
    (u : User.t)
    (Hwf : well_formed db)
    (Huser : get_current_active_user E token db now = Ok u) :
  (verify_password E (schemas.current_password password_data)
                   (User.hashed_password u) = Ok false ->
   change_password E password_data token db salt now clock
   = (Raise (HTTPException 400 "Current password is incorrect"), db))
  /\ (forall resp db',
        change_password E password_data token db salt now clock = (Ok resp, db') ->
        exists h,
          get_password_hash E salt (schemas.new_password password_data) = Ok h
          /\ verify_password E (schemas.current_password password_data)
                             (User.hashed_password u) = Ok true
          /\ In (User.set_hashed_password h now u) (users db')
          /\ (forall v, In v (users db') ->
                v = User.set_hashed_password h now u
                \/ (In v (users db) /\ User.id v <> User.id u))
          /\ (forall v, In v (users db) -> User.id v <> User.id u ->
                In v (users db'))
          /\ (forall r, In r (refresh_tokens db) ->
                RefreshToken.user_id r <> User.id u -> In r (refresh_tokens db'))
          /\ ((forall v, In v (users db) -> User.email v = User.username u -> v = u) ->
              verify_password E (schemas.new_password password_data) h = Ok true ->
              authenticate_user E (User.username u)
                                (schemas.new_password password_data) db'
              = Ok (Some (User.set_hashed_password h now u)))).
Proof.
  split.
  - intros V. unfold change_password. now rewrite Huser, V.
  - intros resp db' Hok.
    apply change_password_Ok in Hok as (u' & h & Hu' & _ & V & Hh & ->).
    apply get_current_active_user_Ok in Huser as [Hu Ha].
    rewrite Hu in Hu'. injection Hu' as <-.
    pose proof (get_current_user_In _ _ _ _ _ Hu) as Hin_u.
    destruct (revoke_all_user_tokens_rows (User.id u)
                (set_users (update_hashed_password (User.id u) h now (users db)) db)
                clock) as (_ & Husers & _).
    simpl in Husers.
    assert (Hnew : In (User.set_hashed_password h now u)
                      (update_hashed_password (User.id u) h now (users db))).
    { apply update_hashed_password_In. right. exists u. auto. }
    assert (Hrows : forall v,
              In v (update_hashed_password (User.id u) h now (users db)) ->
              v = User.set_hashed_password h now u
              \/ (In v (users db) /\ User.id v <> User.id u)).
    { intros v Hv.
      apply update_hashed_password_In in Hv as [Hv|(v0 & Hv0 & Hid & ->)].
      - right. exact Hv.
      - left. f_equal.
        eapply NoDup_map_inj; [apply (wf_user_ids _ Hwf)|auto|auto|exact Hid]. }
    assert (Hname : forall v, In v (users db) ->
              User.username v = User.username u -> v = u).
    { intros v Hv Heq.
      eapply NoDup_map_inj; [apply (wf_usernames _ Hwf)|auto|auto|exact Heq]. }
    exists h. split; [exact Hh|]. split; [exact V|].
    rewrite Husers.
    split; [exact Hnew|]. split; [exact Hrows|]. split; [|split].
    + intros v Hv Hid. apply update_hashed_password_In. left. auto.
    + intros r Hr Hne.
      apply revoke_all_user_tokens_keeps_others; assumption.
    + intros Hmail Vnew. unfold authenticate_user. rewrite Husers.
      unfold Query.first.
      destruct (find _ (update_hashed_password _ _ _ _)) as [y|] eqn:F.
      * apply find_some in F as [Hy Hidy].
        destruct (Hrows y Hy) as [->|[Hy0 Hne]].
        -- simpl. rewrite Vnew. reflexivity.
        -- exfalso. apply Hne. f_equal.
           apply has_identifier_iff in Hidy as [Hn|Hm]; auto.
      * exfalso. pose proof (find_none _ _ F _ Hnew) as Hn.
        unfold has_identifier in Hn. simpl in Hn.
        rewrite String.eqb_refl in Hn. discriminate Hn.
Qed.

(** The theorem at the sample store: Alice changes her password and
    logs in with the new one. *)
Lemma change_password_effects_witness :
  let pw := schemas.mkPasswordChangeRequest "pw-alice" "new-password" in
  let db' := snd (change_password Sample.env pw "k.alice" Sample.db "s" 10
                    (fun _ => 10)) in
  authenticate_user Sample.env "alice" "new-password" db'
  = Ok (Some (User.set_hashed_password "$2b$s$new-password" 10 Sample.alice))
  /\ In Sample.bob (users db').
Proof.
  cbv zeta.
  destruct (proj2 (change_password_effects Sample.env
                     (schemas.mkPasswordChangeRequest "pw-alice" "new-password")
                     "k.alice" Sample.db "s" 10 (fun _ => 10) Sample.alice
                     sample_db_well_formed eq_refl) _ _ eq_refl)
    as (h & Hh & _ & _ & _ & Hothers & _ & Hlogin).
  injection Hh as <-. split.
  - apply Hlogin; [|reflexivity].
    intros v [<-|[<-|[]]]; simpl; discriminate.
  - apply Hothers; simpl; [auto|lia].
Defined.
